(** * mcp-bench: trace extraction, protocol verification and the score ledger

    A shallow embedding of the scoring core of the benchmark
    (parse_results.py, judge.py, merge_results.py, rerun_failed.py) and the
    properties stated about it.

    Conventions of the model.
    - A Python [str] is a Rocq [string]; the model covers text over the
      ASCII range, where [str.strip], [str.upper] and the regular
      expression class [\d] are the ones below.  Characters above 127 are
      carried along unchanged.
    - A Python [dict] read from or written to a CSV file is a
      [gmap string _]; a dict whose order of keys is observable
      (the values built by [eval] and by the [json] module) is an
      association list.
    - Code that can raise returns an [option]; [None] is the exception. *)

From Stdlib Require Import ZArith Ascii String.
From stdpp Require Import base option list gmap strings pretty sorting.

Set Warnings "-register-all".

Local Open Scope string_scope.
Local Open Scope Z_scope.
Local Open Scope list_scope.

(** ** Text primitives *)

Module Text.

(** [String "034" ""] is the one-character text made of a double quote. *)
Definition dquote : ascii := "034"%char.
Definition newline : ascii := "010"%char.

Definition quoted (s : string) : string :=
  String dquote (s +:+ String dquote "").

(** [s[:n]] for a non-negative [n]. *)
Fixpoint prefix_n (n : nat) (s : string) : string :=
  match n, s with
  | S n', String a s' => String a (prefix_n n' s')
  | _, _ => ""
  end.

(** [s.startswith(p)], returning what follows [p]. *)
Fixpoint strip_prefix (p s : string) : option string :=
  match p, s with
  | "", _ => Some s
  | String a p', String b s' =>
      if Ascii.eqb a b then strip_prefix p' s' else None
  | String _ _, "" => None
  end.

Definition starts_with (p s : string) : bool :=
  bool_decide (is_Some (strip_prefix p s)).

(** [needle in hay] on two [str]. *)
Fixpoint contains (needle hay : string) : bool :=
  starts_with needle hay ||
  match hay with
  | "" => false
  | String _ hay' => contains needle hay'
  end.

(** The whitespace of [str.strip()] and [str.isspace()] on the ASCII
    range: TAB, LF, VT, FF, CR, FS, GS, RS, US and the space. *)
Definition py_isspace (a : ascii) : bool :=
  let n := N_of_ascii a in
  ((9 <=? n) && (n <=? 13) || (28 <=? n) && (n <=? 32))%N.

Fixpoint lstrip (s : string) : string :=
  match s with
  | String a s' => if py_isspace a then lstrip s' else s
  | "" => ""
  end.

Definition rstrip (s : string) : string :=
  String.rev (lstrip (String.rev s)).

(** [s.strip()] *)
Definition strip (s : string) : string := rstrip (lstrip s).

Definition is_lower (a : ascii) : bool :=
  let n := N_of_ascii a in ((97 <=? n) && (n <=? 122))%N.
Definition is_upper (a : ascii) : bool :=
  let n := N_of_ascii a in ((65 <=? n) && (n <=? 90))%N.

Definition upper_char (a : ascii) : ascii :=
  if is_lower a then ascii_of_N (N_of_ascii a - 32) else a.
Definition lower_char (a : ascii) : ascii :=
  if is_upper a then ascii_of_N (N_of_ascii a + 32) else a.

Fixpoint map_chars (f : ascii → ascii) (s : string) : string :=
  match s with
  | "" => ""
  | String a s' => String (f a) (map_chars f s')
  end.

(** [s.upper()] and [s.lower()] *)
Definition upper : string → string := map_chars upper_char.
Definition lower : string → string := map_chars lower_char.

(** The class [\d] on the ASCII range. *)
Definition is_digit (a : ascii) : bool :=
  let n := N_of_ascii a in ((48 <=? n) && (n <=? 57))%N.

Definition digit_val (a : ascii) : Z := Z.of_N (N_of_ascii a) - 48.

(** The longest prefix of characters satisfying [p], and the rest. *)
Fixpoint span_chars (p : ascii → bool) (s : string) : string * string :=
  match s with
  | String a s' =>
      if p a then let '(h, t) := span_chars p s' in (String a h, t)
      else ("", s)
  | "" => ("", "")
  end.

(** [int(ds)] for a text [ds] of decimal digits. *)
Fixpoint digits_acc (acc : Z) (ds : string) : Z :=
  match ds with
  | "" => acc
  | String a ds' => digits_acc (10 * acc + digit_val a) ds'
  end.

Definition digits_to_Z (ds : string) : Z := digits_acc 0 ds.

(** [s.split("\n")] *)
Fixpoint split_lines (s : string) : list string :=
  match s with
  | "" => [""]
  | String a s' =>
      if Ascii.eqb a newline then "" :: split_lines s'
      else match split_lines s' with
           | l :: ls => String a l :: ls
           | [] => [String a ""]
           end
  end.

(** [sep.join(parts)] *)
Fixpoint join (sep : string) (parts : list string) : string :=
  match parts with
  | [] => ""
  | [p] => p
  | p :: ps => p +:+ sep +:+ join sep ps
  end.

(** The group [(.+)] at the end of a pattern: one or more characters up
    to, and not including, the first line feed. *)
Definition dot_plus (s : string) : option string :=
  let g := fst (span_chars (λ a, negb (Ascii.eqb a newline)) s) in
  if decide (g = "") then None else Some g.

End Text.

Import Text.

(** ** Python values

    The values that the argument text of a telemetry line evaluates to and
    that the [json] module reads and writes.  Dict keys are texts, as in the
    argument dicts of the telemetry; a dict keeps its insertion order.  A
    float is named by its [repr], the shortest decimal text that reads back
    as the float ([nan], [inf] and [-inf] for the three that are not
    finite): two floats are the same float when they have the same [repr].
    Sets, bytes and other objects are not part of the model. *)

Inductive pyval : Type :=
| PNone
| PBool (b : bool)
| PInt (z : Z)
| PFloat (repr : string)
| PStr (s : string)
| PList (items : list pyval)
| PTuple (items : list pyval)
| PDict (entries : list (string * pyval)).

(** [bool(v)] *)
Definition truthy (v : pyval) : bool :=
  match v with
  | PNone => false
  | PBool b => b
  | PInt z => negb (z =? 0)
  | PFloat r => negb (String.eqb r "0.0" || String.eqb r "-0.0")
  | PStr s => negb (String.eqb s "")
  | PList l | PTuple l => match l with [] => false | _ => true end
  | PDict d => match d with [] => false | _ => true end
  end.

(** [a or b] *)
Definition py_or (a b : pyval) : pyval := if truthy a then a else b.

(** Lookup in an insertion-ordered dict. *)
Fixpoint assoc_get {A} (k : string) (d : list (string * A)) : option A :=
  match d with
  | [] => None
  | (k', v) :: d' => if decide (k' = k) then Some v else assoc_get k d'
  end.

(** ** Trace extraction (parse_results.py) *)

Inductive outcome : Type := HAS_DATA | EMPTY_NO_DATA | ERROR_OR_TIMEOUT.

#[global] Instance outcome_eq_dec : EqDecision outcome.
Proof. solve_decision. Defined.

(** One entry of the list returned by [parse_tool_calls]. *)
Record call : Type := Call {
  tool : string;
  args : pyval;
  output_size : Z;
  output : string;
  has_data : bool;
  is_error : bool;
}.

(** The two flags computed on an output line:
<<
  is_error = '"error"' in output_raw[:300] and "timed out" in output_raw[:300]
  has_data = '"data"' in output_raw[:300] and '"error"' not in output_raw[:300]
>> *)
Definition is_error_of (output_raw : string) : bool :=
  contains (quoted "error") (prefix_n 300 output_raw)
  && contains "timed out" (prefix_n 300 output_raw).

Definition has_data_of (output_raw : string) : bool :=
  contains (quoted "data") (prefix_n 300 output_raw)
  && negb (contains (quoted "error") (prefix_n 300 output_raw)).

(** The outcome that both renderers read off the two flags:
    ["OK" if has_data else ("ERR" if is_error else "EMPTY")] in
    [summarize_tool_trace], and the same conditional with the labels
    DATA, ERROR/TIMEOUT and EMPTY/NO_DATA in [build_all_calls_summary]. *)
Definition status_of (has_data is_error : bool) : outcome :=
  if has_data then HAS_DATA
  else if is_error then ERROR_OR_TIMEOUT else EMPTY_NO_DATA.

Definition call_outcome (c : call) : outcome :=
  status_of (has_data c) (is_error c).

Definition output_outcome (output_raw : string) : outcome :=
  status_of (has_data_of output_raw) (is_error_of output_raw).

(** The three anchored patterns of [parse_tool_calls] that carry data, and
    the one that does not. *)
Definition re_tool (line : string) : option string :=
  strip_prefix "[TELEMETRY] Tool: " line ≫= dot_plus.

Definition re_args (line : string) : option string :=
  strip_prefix "[TELEMETRY] Args: " line ≫= dot_plus.

Definition re_executed (line : string) : option string :=
  strip_prefix "[TELEMETRY] Tool executed successfully: " line ≫= dot_plus.

Definition re_output (line : string) : option (string * string) :=
  rest ← strip_prefix "[TELEMETRY] Output (" line;
  let '(ds, rest') := span_chars is_digit rest in
  if decide (ds = "") then None
  else rest'' ← strip_prefix " bytes): " rest';
       out ← dot_plus rest'';
       Some (ds, out).

(** The locals of the scanning loop. *)
Record scan_state : Type := Scan {
  current_tool : option string;
  current_args : pyval;
  calls : list call;
}.

Definition tool_pending (st : scan_state) : option string :=
  match current_tool st with
  | Some t => if decide (t = "") then None else Some t
  | None => None
  end.

Section Parse.

(** [eval] of the argument text: [None] when it raises. *)
Variable py_eval : string → option pyval.

Definition scan_line (st : scan_state) (raw_line : string) : scan_state :=
  let line := strip raw_line in
  match re_tool line with
  | Some t => Scan (Some t) PNone (calls st)
  | None =>
  match re_args line with
  | Some a =>
      Scan (current_tool st)
           (match py_eval a with Some v => v | None => PStr a end)
           (calls st)
  | None =>
  if bool_decide (is_Some (re_executed line))
     && bool_decide (is_Some (tool_pending st))
  then st
  else
  match re_output line, tool_pending st with
  | Some (ds, output_raw), Some t =>
      let c := {| tool := t;
                  args := py_or (current_args st) (PDict []);
                  output_size := digits_to_Z ds;
                  output := output_raw;
                  has_data := has_data_of output_raw;
                  is_error := is_error_of output_raw |} in
      Scan None PNone (calls st ++ [c])
  | _, _ => st
  end
  end
  end.

Definition parse_tool_calls (server_log : string) : list call :=
  if decide (server_log = "") then []
  else calls (fold_left scan_line (split_lines server_log) (Scan None PNone [])).

End Parse.

(** [args.get(k, dflt)]: only a dict has [get]. *)
Definition args_get (k : string) (dflt : pyval) (a : pyval) : option pyval :=
  match a with
  | PDict d => Some (default dflt (assoc_get k d))
  | _ => None
  end.

#[global] Instance pyval_eq_dec : EqDecision pyval.
Proof.
  refine (fix go (x y : pyval) {struct x} : Decision (x = y) :=
    match x, y with
    | PNone, PNone => left eq_refl
    | PBool a, PBool b => cast_if (decide (a = b))
    | PInt a, PInt b => cast_if (decide (a = b))
    | PFloat a, PFloat b => cast_if (decide (a = b))
    | PStr a, PStr b => cast_if (decide (a = b))
    | PList a, PList b => cast_if (@list_eq_dec _ go a b)
    | PTuple a, PTuple b => cast_if (@list_eq_dec _ go a b)
    | PDict a, PDict b =>
        cast_if (@list_eq_dec _ (@prod_eq_dec _ _ _ go) a b)
    | _, _ => right _
    end); abstract congruence.
Defined.

#[global] Instance call_eq_dec : EqDecision call.
Proof. solve_decision. Defined.

(** [k in a] for a text [k]: key membership in a dict, substring test on a
    text, element membership in a list or tuple; the other values are not
    iterable. *)
Definition py_in (k : string) (a : pyval) : option bool :=
  match a with
  | PDict d => Some (bool_decide (is_Some (assoc_get k d)))
  | PStr s => Some (contains k s)
  | PList l | PTuple l => Some (bool_decide (PStr k ∈ l))
  | PNone | PBool _ | PInt _ | PFloat _ => None
  end.

(** What one call contributes to [detect_dataset_used]: the loop body
<<
  if "dataset" in args: return args["dataset"]
  if isinstance(args, dict) and "filters" in args:
      filters = args["filters"]
      if isinstance(filters, dict) and "dataset" in filters:
          return filters["dataset"]
>> *)
Inductive probe : Type :=
| Found (v : pyval)   (* the loop returns [v] *)
| Absent              (* the loop goes on to the next call *)
| Raised.             (* the subscript or the [in] raises *)

Definition probe_dataset (a : pyval) : probe :=
  match py_in "dataset" a with
  | None => Raised
  | Some true =>
      match a with
      | PDict d => match assoc_get "dataset" d with
                   | Some v => Found v
                   | None => Raised
                   end
      | _ => Raised
      end
  | Some false =>
      match a with
      | PDict d =>
          match assoc_get "filters" d with
          | Some (PDict f) =>
              match assoc_get "dataset" f with
              | Some v => Found v
              | None => Absent
              end
          | _ => Absent
          end
      | _ => Absent
      end
  end.

Fixpoint detect_dataset_used (cs : list call) : option pyval :=
  match cs with
  | [] => Some (PStr "")
  | c :: cs' =>
      match probe_dataset (args c) with
      | Found v => Some v
      | Absent => detect_dataset_used cs'
      | Raised => None
      end
  end.

Section Trace.

(** [str(v)] of a value that is not a text, as an f-string and the csv
    writer render it. *)
Variable py_str : pyval → string.

Definition fmt (v : pyval) : string :=
  match v with PStr s => s | _ => py_str v end.

(** The token of one call in [summarize_tool_trace]. *)
Definition trace_token (c : call) : option string :=
  if decide (tool c = "1_know_about_mospi_api") then Some "1_know"
  else if decide (tool c = "2_get_indicators") then
    ds ← args_get "dataset" (PStr "?") (args c);
    Some ("2_indicators(" +:+ fmt ds +:+ ")")
  else if decide (tool c = "3_get_metadata") then
    ds ← args_get "dataset" (PStr "?") (args c);
    ind ← args_get "indicator_code" (PStr "?") (args c);
    Some ("3_metadata(" +:+ fmt ds +:+ ",ind=" +:+ fmt ind +:+ ")")
  else if decide (tool c = "4_get_data") then
    ds ← args_get "dataset" (PStr "?") (args c);
    let status := if has_data c then "OK"
                  else if is_error c then "ERR" else "EMPTY" in
    Some ("4_data(" +:+ fmt ds +:+ ")[" +:+ status +:+ "]")
  else Some (tool c).

Definition summarize_tool_trace (cs : list call) : option string :=
  parts ← mapM trace_token cs;
  Some (join " -> " parts).

End Trace.

(** ** Local scoring (judge.py) *)

(** A row as [csv.DictReader] yields it. *)
Abbreviation csv_row := (gmap string string).

Definition row_get (row : csv_row) (k dflt : string) : string :=
  default dflt (row !! k).

Definition auto_score_routing (row : csv_row) : Z :=
  let expected := upper (strip (row_get row "dataset" "")) in
  let actual := upper (strip (row_get row "dataset_routed_to" "")) in
  if decide (actual = "") then 0
  else if decide (actual = expected) then 1 else 0.

(** [re.findall(r'(\d)_', trace)]: the matches are found left to right and
    do not overlap; each yields its digit. *)
Fixpoint findall_digit_underscore (trace : string) : list ascii :=
  match trace with
  | String a (String b rest as tl) =>
      if is_digit a && Ascii.eqb b "_"
      then a :: findall_digit_underscore rest
      else findall_digit_underscore tl
  | _ => []
  end.

(** The loop that removes consecutive duplicates:
<<
  deduped = [tool_nums[0]]
  for t in tool_nums[1:]:
      if t != deduped[-1]: deduped.append(t)
>> *)
Definition dedup_step (deduped : list ascii) (t : ascii) : list ascii :=
  if decide (last deduped = Some t) then deduped else (deduped ++ [t])%list.

Definition dedup_retries (tool_nums : list ascii) : list ascii :=
  match tool_nums with
  | [] => []
  | t0 :: rest => fold_left dedup_step rest [t0]
  end.

Definition required_order : list ascii := ["1"; "2"; "3"; "4"]%char.

(** The pointer walk:
<<
  idx = 0
  for t in deduped:
      if idx < len(expected) and t == expected[idx]: idx += 1
>> *)
Definition advance (idx : nat) (t : ascii) : nat :=
  if bool_decide (idx < length required_order)%nat
     && bool_decide (required_order !! idx = Some t)
  then S idx else idx.

Definition walk_required (deduped : list ascii) : nat :=
  fold_left advance deduped 0%nat.

(** [auto_score_ordering] from the extracted tool numbers on. *)
Definition order_verifier (tool_nums : list ascii) : Z :=
  if decide (tool_nums = []) then 0
  else if decide (walk_required (dedup_retries tool_nums) = 4%nat) then 1
       else 0.

Definition auto_score_ordering (row : csv_row) : Z :=
  let trace := row_get row "tool_trace" "" in
  if decide (trace = "") then 0
  else order_verifier (findall_digit_underscore trace).

(** ** Rows of the ledger

    A cell of an in-memory row is a text (everything read from a CSV file)
    or an integer (the scores and counts computed before writing). *)

Inductive cell : Type := CStr (s : string) | CInt (z : Z).

#[global] Instance cell_eq_dec : EqDecision cell.
Proof. solve_decision. Defined.

#[global] Instance cell_countable : Countable cell.
Proof.
  refine (inj_countable'
    (λ c, match c with CStr s => inl s | CInt z => inr z end)
    (λ x, match x with inl s => CStr s | inr z => CInt z end) _).
  by intros [].
Defined.

Abbreviation row := (gmap string cell).

(** The text the csv writer puts in the file for a cell. *)
Definition cell_text (c : cell) : string :=
  match c with CStr s => s | CInt z => pretty z end.

(** A CSV file: the header and the rows that [csv.DictReader] yields, each
    a dict over the columns of the header.  The order of the columns plays
    no part in what follows, so the header is a set. *)
Record ledger : Type := Ledger {
  fieldnames : gset string;
  lrows : list csv_row;
}.

#[global] Instance ledger_eq_dec : EqDecision ledger.
Proof. solve_decision. Defined.

Definition ledger_wf (l : ledger) : Prop :=
  Forall (λ r : csv_row, dom r = fieldnames l) (lrows l).

(** A row as it is read. *)
Definition as_read (r : csv_row) : row := CStr <$> r.

(** [csv.DictWriter(f, fieldnames=fields)] writing one dict: a key outside
    the header raises [ValueError]; a column without a value is written
    empty. *)
Definition write_row (fields : gset string) (r : row) : option csv_row :=
  if decide (dom r ⊆ fields)
  then Some (cell_text <$> (r ∪ gset_to_gmap (CStr "") fields))
  else None.

(** [writer.writeheader(); writer.writerows(rows)] into a fresh file.
    [None] is the exception; what the file holds then is not modelled. *)
Definition write_ledger (fields : gset string) (rows : list row)
  : option ledger :=
  Ledger fields <$> mapM (write_row fields) rows.

(** ** The judging run (judge.py, [main]) *)

(** The fields of the structured answer of the judge. *)
Record JudgeResult : Type := {
  filter_accuracy : Z;
  filter_notes : string;
  data_retrieval : Z;
  data_notes : string;
  response_quality : Z;
  response_notes : string;
  behavior_compliance : Z;
  behavior_notes : string;
}.

(** What [call_judge] returns: the dict with the single key [error], or the
    dump of the validated answer with the reasoning added. *)
Inductive judge_reply : Type :=
| JudgeError (error : string)
| JudgeOk (result : JudgeResult) (judge_reasoning : string).

(** [sum(s for s in scores if isinstance(s, int) and s > 0)] *)
Definition counts_in_total (s : cell) : bool :=
  match s with CInt z => bool_decide (0 < z) | CStr _ => false end.

Definition int_of_cell (s : cell) : Z :=
  match s with CInt z => z | CStr _ => 0 end.

Definition sum_Z (l : list Z) : Z := foldr Z.add 0 l.

Definition total_of (scores : list cell) : Z :=
  sum_Z (int_of_cell <$> filter (λ s, counts_in_total s = true) scores).

Definition replace_newlines (s : string) : string :=
  map_chars (λ a, if Ascii.eqb a newline then " "%char else a) s.

(** The six scores of a row, in the order of the list [scores]. *)
Definition scores_of (r : csv_row) (reply : judge_reply) : list cell :=
  match reply with
  | JudgeError _ =>
      [CInt (auto_score_routing r); CInt (auto_score_ordering r);
       CStr "ERR"; CStr "ERR"; CStr "ERR"; CStr "ERR"]
  | JudgeOk j _ =>
      [CInt (auto_score_routing r); CInt (auto_score_ordering r);
       CInt (filter_accuracy j); CInt (data_retrieval j);
       CInt (response_quality j); CInt (behavior_compliance j)]
  end.

Definition notes_of (reply : judge_reply) : list string :=
  match reply with
  | JudgeError e => [e; ""; ""; ""]
  | JudgeOk j _ =>
      [filter_notes j; data_notes j; response_notes j; behavior_notes j]
  end.

Definition reasoning_of (reply : judge_reply) : string :=
  match reply with JudgeError _ => "" | JudgeOk _ t => t end.

Definition nth_cell (n : nat) (l : list cell) : cell := default (CStr "") (l !! n).
Definition nth_text (n : nat) (l : list string) : string := default "" (l !! n).

(** The output row: [dict(row)] updated with the twelve score fields. *)
Definition out_row (r : csv_row) (reply : judge_reply) : row :=
  let scores := scores_of r reply in
  let notes := notes_of reply in
  let score_filter := nth_cell 2 scores in
  list_to_map [
    ("score_routing", nth_cell 0 scores);
    ("score_ordering", nth_cell 1 scores);
    ("score_filter_accuracy",
       if decide (score_filter = CInt (-1)) then CStr "N/A" else score_filter);
    ("filter_notes", CStr (nth_text 0 notes));
    ("score_data_retrieval", nth_cell 3 scores);
    ("data_notes", CStr (nth_text 1 notes));
    ("score_response_quality", nth_cell 4 scores);
    ("response_notes", CStr (nth_text 2 notes));
    ("score_behavior", nth_cell 5 scores);
    ("behavior_notes", CStr (nth_text 3 notes));
    ("total_score", CInt (total_of scores));
    ("judge_reasoning", CStr (replace_newlines (reasoning_of reply)))
  ] ∪ as_read r.

Definition score_fields : gset string :=
  list_to_set
    ["score_routing"; "score_ordering";
     "score_filter_accuracy"; "filter_notes";
     "score_data_retrieval"; "data_notes";
     "score_response_quality"; "response_notes";
     "score_behavior"; "behavior_notes";
     "total_score"; "judge_reasoning"].

(** The state of the loop of [main]: the list [results] and the content of
    judge_results.csv ([None] while the file does not exist). *)
Record run_state : Type := Run {
  results : list row;
  out_file : option ledger;
}.

Section JudgeRun.

(** The answer of the judge service for a row. *)
Variable call_judge : csv_row → judge_reply.

(** One iteration of the loop over [enumerate(rows)]. *)
Definition judge_step (out_fields : gset string) (start : Z)
    (st : option run_state) (ir : nat * csv_row) : option run_state :=
  st ← st;
  let row_num := Z.of_nat ir.1 + 1 in
  if decide (row_num < start) then Some st
  else
    let results' := (results st ++ [out_row ir.2 (call_judge ir.2)])%list in
    file' ← write_ledger out_fields results';
    Some (Run results' (Some file')).

(** [main] from the reading of the benchmark rows on.  [None] is an
    exception: the [IndexError] of [rows[0]] on a benchmark file without
    rows, or the [ValueError] of the writer. *)
Definition judge_main (rows : list csv_row) (start : Z)
    (file : option ledger) : option run_state :=
  match rows with
  | [] => None
  | row0 :: _ =>
      let out_fields := dom row0 ∪ score_fields in
      let existing :=
        match file with
        | Some old => if decide (1 < start) then as_read <$> lrows old else []
        | None => []
        end in
      fold_left (judge_step out_fields start) (imap pair rows)
        (Some (Run existing file))
  end.

End JudgeRun.

(** ** Re-judging one query (rerun_failed.py, [judge_single_query]) *)






Section Rejudge.

(** The value of the environment variable [GEMINI_API_KEY]. *)
Variable api_key : option string.

(** The two functions that the import names and judge.py does not have;
    they stand for what the names would be bound to. *)
Variable build_judge_prompt : csv_row → string.
Variable call_llm_judge : string → row.


End Rejudge.

(** ** Merging a re-run into the ledgers (merge_results.py) *)

(** The identity key [(platform, mode, dataset, no)] as the code builds it:
    three results of [dict.get] ([None] for a missing column) and an
    integer. *)
Abbreviation key := (option cell * option cell * option cell * Z)%type.

Section Merge.

(** [int(s)] of a text: [None] when it raises [ValueError]. *)
Variable int_of_text : string → option Z.

Definition py_int (c : cell) : option Z :=
  match c with CInt z => Some z | CStr s => int_of_text s end.

(** [int(row.get("no", 0))] *)
Definition row_no (r : row) : option Z :=
  py_int (default (CInt 0) (r !! "no")).

(** The key of a row of the ledger. *)
Definition existing_key (r : row) : option key :=
  n ← row_no r;
  Some (r !! "platform", r !! "mode", r !! "dataset", n).

(** The key of an incoming row, with the defaults for platform and mode. *)
Definition incoming_key (platform mode : string) (r : row) : option key :=
  n ← row_no r;
  Some (Some (default (CStr platform) (r !! "platform")),
        Some (default (CStr mode) (r !! "mode")),
        r !! "dataset", n).

(** The dict [new_lookup]: a later row with the same key replaces an
    earlier one. *)
Fixpoint build_lookup (platform mode : string) (new_rows : list row)
    (new_lookup : gmap key row) : option (gmap key row) :=
  match new_rows with
  | [] => Some new_lookup
  | r :: rs =>
      k ← incoming_key platform mode r;
      build_lookup platform mode rs (<[k := r]> new_lookup)
  end.

(** The body of the merge loop on one row: the merged row and whether it
    was updated.  [for k, v in new.items(): row[k] = v] is the union that
    prefers [new]. *)
Definition merge_row (new_lookup : gmap key row) (r : row)
  : option (row * bool) :=
  k ← existing_key r;
  Some (match new_lookup !! k with
        | Some new => (new ∪ r, true)
        | None => (r, false)
        end).

Definition count_updated (l : list (row * bool)) : nat :=
  length (filter (λ p, p.2 = true) l).

(** [merge_into_benchmark]: the file after the call and the count that is
    returned. *)
Definition merge_into_benchmark (file : ledger) (new_rows : list row)
    (platform mode : string) : option (ledger * nat) :=
  new_lookup ← build_lookup platform mode new_rows ∅;
  merged ← mapM (merge_row new_lookup) (as_read <$> lrows file);
  file' ← write_ledger (fieldnames file) (merged.*1);
  Some (file', count_updated merged).

Definition judge_fields : list string :=
  ["score_filter_accuracy"; "score_data_retrieval";
   "score_response_quality"; "score_behavior";
   "filter_notes"; "data_notes"; "response_notes";
   "behavior_notes"; "total_score"; "judge_reasoning"].

(** [if field in row: row[field] = ""] *)
Definition clear_field (r : row) (field : string) : row :=
  if decide (is_Some (r !! field)) then <[field := CStr ""]> r else r.

Definition clear_scores (r : row) : row := fold_left clear_field judge_fields r.

Definition rejudge_row (updated_queries : list key) (rejudge : bool) (r : row)
  : option row :=
  k ← existing_key r;
  Some (if decide (k ∈ updated_queries)
        then if rejudge then clear_scores r else r
        else r).

(** [merge_into_judge]: the judge file after the call; a missing file
    ([None]) is reported and left missing. *)
Definition merge_into_judge (file : option ledger)
    (updated_queries : list key) (rejudge : bool) : option (option ledger) :=
  match file with
  | None => Some None
  | Some old =>
      rows' ← mapM (rejudge_row updated_queries rejudge) (as_read <$> lrows old);
      Some <$> write_ledger (fieldnames old) rows'
  end.

End Merge.

Arguments clear_scores : simpl never.

(** ** Reference definitions used to state the properties *)

(** The collapse of consecutive duplicates, by recursion on the list: an
    element is dropped when the next one is equal to it. *)
Fixpoint collapse (l : list ascii) : list ascii :=
  match l with
  | a :: (b :: _) as tl => if decide (a = b) then collapse tl else a :: collapse tl
  | _ => l
  end.

(** A decision procedure for the subsequence relation [sublist] of stdpp. *)
Fixpoint is_subseq (l1 l2 : list ascii) {struct l2} : bool :=
  match l1, l2 with
  | [], _ => true
  | _ :: _, [] => false
  | x :: l1', y :: l2' =>
      if decide (x = y) then is_subseq l1' l2' else is_subseq l1 l2'
  end.

Lemma sublist_skip_iff (x : ascii) (l1 l2 : list ascii) :
  x :: l1 `sublist_of` x :: l2 ↔ l1 `sublist_of` l2.
Proof.
  split; [|apply sublist_skip].
  intros [H|(l' & [= <-] & H)]%sublist_cons_r; [|done].
  etrans; [|exact H]. by apply sublist_cons.
Qed.

Lemma sublist_cons_ne (x y : ascii) (l1 l2 : list ascii) :
  x ≠ y → x :: l1 `sublist_of` y :: l2 ↔ x :: l1 `sublist_of` l2.
Proof.
  intros Hne. split; [|apply sublist_cons].
  intros [H|(l' & [= -> <-] & H)]%sublist_cons_r; done.
Qed.

Lemma is_subseq_spec (l1 l2 : list ascii) :
  is_subseq l1 l2 = true ↔ l1 `sublist_of` l2.
Proof.
  revert l1. induction l2 as [|y l2 IH]; intros [|x l1]; cbn.
  - done.
  - split; [done|]. by intros ?%sublist_nil_r.
  - split; [intros _; apply sublist_nil_l | done].
  - case_decide as Hxy.
    + subst. by rewrite IH, sublist_skip_iff.
    + by rewrite IH, sublist_cons_ne.
Qed.

#[global] Instance sublist_ascii_dec (l1 l2 : list ascii) :
  Decision (l1 `sublist_of` l2).
Proof.
  refine (cast_if (decide (is_subseq l1 l2 = true)));
    by rewrite <-is_subseq_spec.
Defined.

(** Two characters that are equal, or the two cases of one ASCII letter. *)
Definition same_letter (a b : ascii) : bool :=
  let n := N_of_ascii a in
  let m := N_of_ascii b in
  ((n =? m) || is_lower a && (m =? n - 32) || is_lower b && (n =? m - 32))%N.

(** Equality of two texts up to the case of their letters. *)
Fixpoint ci_eqb (s t : string) : bool :=
  match s, t with
  | "", "" => true
  | String a s', String b t' => same_letter a b && ci_eqb s' t'
  | _, _ => false
  end.

(** The dataset that the arguments of a call name: the value under
    [dataset], or else the value under [dataset] of the dict under
    [filters]. *)
Definition named_dataset (a : pyval) : option pyval :=
  match a with
  | PDict d =>
      match assoc_get "dataset" d with
      | Some v => Some v
      | None =>
          match assoc_get "filters" d with
          | Some (PDict f) => assoc_get "dataset" f
          | _ => None
          end
      end
  | _ => None
  end.

(** The contribution of one score to a total that counts a score of -1 and
    an error marker as zero. *)
Definition contribution (s : cell) : Z :=
  match s with CInt z => Z.max 0 z | CStr _ => 0 end.

(** A telemetry log in which the second step is never called, and a tool
    whose name holds a digit followed by an underscore is called between
    the first and the third step. *)
Definition log_without_step_2 : string :=
  join (String newline "")
    ["[TELEMETRY] Tool: 1_know_about_mospi_api";
     "[TELEMETRY] Output (2 bytes): {}";
     "[TELEMETRY] Tool: foo_2_bar";
     "[TELEMETRY] Output (2 bytes): {}";
     "[TELEMETRY] Tool: 3_get_metadata";
     "[TELEMETRY] Output (2 bytes): {}";
     "[TELEMETRY] Tool: 4_get_data";
     "[TELEMETRY] Output (2 bytes): {}"].

Definition calls_without_step_2 : list call :=
  [Call "1_know_about_mospi_api" (PDict []) 2 "{}" false false;
   Call "foo_2_bar" (PDict []) 2 "{}" false false;
   Call "3_get_metadata" (PDict []) 2 "{}" false false;
   Call "4_get_data" (PDict []) 2 "{}" false false].

(** A row that scores 1 on routing and on ordering, and a reply of the
    judge with the filter dimension not applicable and the other three
    dimensions at 1. *)
Definition row_all_steps : csv_row :=
  {[ "dataset" := "CPI";
     "dataset_routed_to" := "CPI";
     "tool_trace" :=
       "1_know -> 2_indicators(CPI) -> 3_metadata(CPI,ind=1) -> 4_data(CPI)[OK]" ]}.

Definition judged_filter_not_applicable : judge_reply :=
  JudgeOk {| filter_accuracy := -1; filter_notes := "";
             data_retrieval := 1; data_notes := "";
             response_quality := 1; response_notes := "";
             behavior_compliance := 1; behavior_notes := "" |} "".

(** Two calls, the second of which names its dataset under [filters]. *)
Definition calls_nested_dataset : list call :=
  [Call "1_know_about_mospi_api" (PDict []) 2 "{}" false false;
   Call "4_get_data"
     (PDict [("filters", PDict [("dataset", PStr "cpi")])]) 2 "{}" false false].

(** [int(s)] on a text of decimal digits, the instance used in the
    examples. *)
Definition decimal_int (s : string) : option Z :=
  let '(ds, rest) := span_chars is_digit s in
  if decide (ds ≠ "" ∧ rest = "") then Some (digits_to_Z ds) else None.

(** The incoming row that the merge applies to a key: the last of the new
    rows with that key. *)
Definition incoming_for (int_of_text : string → option Z)
    (platform mode : string) (new_rows : list row) (k : key) : option row :=
  last (filter (λ r, incoming_key int_of_text platform mode r = Some k) new_rows).

(** A row of the file with the fields of an incoming row written over it. *)
Definition overwritten (new : row) (r : csv_row) : csv_row :=
  (cell_text <$> new) ∪ r.

(** The identity key of a row of a file, in the words of the claims: its
    platform, its mode, its dataset and its number.  The number is an
    integer: the one a text stands for, 0 for a row without number. *)
Definition query_number (int_of_text : string → option Z) (c : option cell)
  : option Z :=
  match c with
  | None => Some 0
  | Some (CInt z) => Some z
  | Some (CStr t) => int_of_text t
  end.

Definition identity_key (int_of_text : string → option Z) (r : csv_row)
  : option key :=
  match query_number int_of_text (CStr <$> r !! "no") with
  | Some n =>
      Some (CStr <$> r !! "platform", CStr <$> r !! "mode",
            CStr <$> r !! "dataset", n)
  | None => None
  end.

(** An incoming row is in the update set for a row of the ledger when the
    two have the same platform, the same mode, the same dataset and the
    same number; an incoming row without platform or without mode has the
    platform and the mode of the run. *)
Definition same_identity (int_of_text : string → option Z)
    (platform mode : string) (r : csv_row) (new : row) : Prop :=
  CStr <$> r !! "platform" = Some (default (CStr platform) (new !! "platform"))
  ∧ CStr <$> r !! "mode" = Some (default (CStr mode) (new !! "mode"))
  ∧ CStr <$> r !! "dataset" = new !! "dataset"
  ∧ is_Some (query_number int_of_text (new !! "no"))
  ∧ query_number int_of_text (CStr <$> r !! "no")
    = query_number int_of_text (new !! "no").

#[global] Instance same_identity_dec (int_of_text : string → option Z)
    (platform mode : string) (r : csv_row) (new : row) :
  Decision (same_identity int_of_text platform mode r new).
Proof. unfold same_identity. apply _. Defined.

(** The row that a merge leaves in the place of a row of the ledger: the
    row with the fields of the last incoming row of its identity written
    over its own, the row itself when no incoming row has its identity. *)
Definition merged_row (int_of_text : string → option Z)
    (platform mode : string) (new_rows : list row) (r : csv_row) : csv_row :=
  match last (filter (same_identity int_of_text platform mode r) new_rows) with
  | Some new => overwritten new r
  | None => r
  end.

(** The downstream judge fields, as the claim lists them: the four scores
    of the judge, the four notes, the total and the reasoning. *)
Definition downstream_fields : list string :=
  ["score_filter_accuracy"; "score_data_retrieval";
   "score_response_quality"; "score_behavior";
   "filter_notes"; "data_notes"; "response_notes"; "behavior_notes";
   "total_score"; "judge_reasoning"].

(** The evidence fields of a row: the columns of the benchmark file
    (parse_results.py, [main]). *)
Definition evidence_fields : list string :=
  ["platform"; "mode"; "dataset"; "no"; "query"; "indicator_tested";
   "filters_tested"; "status"; "dataset_routed_to"; "correct_routing";
   "num_tool_calls"; "tool_trace"; "reached_get_data";
   "got_data"; "had_timeout"; "get_data_filters";
   "1_know_output"; "2_indicators_output"; "3_metadata_output";
   "4_data_output"; "all_tool_calls"; "response_short"; "response_full"].

(** The two fields scored without the judge. *)
Definition auto_scored_fields : list string :=
  ["score_routing"; "score_ordering"].

(** A row of the judge file with its downstream fields emptied: a
    downstream field that the row has becomes the empty text, every other
    field keeps its value. *)
Definition cleared (r : csv_row) : csv_row :=
  map_imap (λ f v, Some (if decide (f ∈ downstream_fields) then "" else v)) r.

(** The row that marking for re-judging leaves in the place of a row of the
    judge file. *)
Definition rejudged (int_of_text : string → option Z)
    (updated_queries : list key) (r : csv_row) : csv_row :=
  match identity_key int_of_text r with
  | Some k => if decide (k ∈ updated_queries) then cleared r else r
  | None => r
  end.

(** A small ledger, and a re-run with a row for its second key and a row
    for a key that the ledger does not have. *)
Definition example_fields : gset string :=
  list_to_set ["platform"; "mode"; "dataset"; "no"; "status";
               "score_routing"; "score_data_retrieval"; "total_score"].

Definition example_row (dataset no status : string) : csv_row :=
  {[ "platform" := "claude"; "mode" := "single"; "dataset" := dataset;
     "no" := no; "status" := status;
     "score_routing" := "1"; "score_data_retrieval" := "0";
     "total_score" := "3" ]}.

Definition example_ledger : ledger :=
  Ledger example_fields
    [example_row "CPI" "1" "ok"; example_row "CPI" "2" "timeout";
     example_row "PLFS" "1" "ok"].

Definition example_new_rows : list row :=
  [ {[ "platform" := CStr "claude"; "mode" := CStr "single";
       "dataset" := CStr "CPI"; "no" := CInt 2; "status" := CStr "ok" ]};
    {[ "platform" := CStr "claude"; "mode" := CStr "single";
       "dataset" := CStr "ASI"; "no" := CInt 9; "status" := CStr "ok" ]} ].

Definition example_updated : list key :=
  [(Some (CStr "claude"), Some (CStr "single"), Some (CStr "CPI"), 2);
   (Some (CStr "claude"), Some (CStr "single"), Some (CStr "ASI"), 9)].

(** A benchmark file of three queries, the judge file left by a run that
    stopped after the first two, and a judge that fails on every row. *)
Definition bench_row (no trace : string) : csv_row :=
  {[ "dataset" := "CPI"; "no" := no; "dataset_routed_to" := "CPI";
     "tool_trace" := trace ]}.

Definition bench_rows : list csv_row :=
  [bench_row "1" "1_know -> 2_indicators(CPI) -> 3_metadata(CPI,ind=1) -> 4_data(CPI)[OK]";
   bench_row "2" "1_know -> 4_data(CPI)[ERR]";
   bench_row "3" "1_know -> 2_indicators(CPI)"].

Definition failing_judge (r : csv_row) : judge_reply := JudgeError "timeout".

Definition judged_so_far : ledger :=
  Ledger (dom (bench_row "" "") ∪ score_fields)
    ((λ r, cell_text <$> out_row r (failing_judge r)) <$> take 2 bench_rows).

(** The row that a judging run appends for a benchmark row, and what the
    file holds for it. *)
Definition judged (call_judge : csv_row → judge_reply) (r : csv_row) : row :=
  out_row r (call_judge r).

Definition judged_text (call_judge : csv_row → judge_reply) (r : csv_row)
  : csv_row :=
  cell_text <$> judged call_judge r.

(** ** The stored form of the calls (the [json] module)

    [json.dumps(v, ensure_ascii=False)] and [json.loads] on the values of
    the model.  Numbers with a fraction or an exponent and escapes above
    code point 255 are outside the model: [json_loads] does not read them. *)













(** The first character of a text, when it has one, and the rest. *)
Definition uncons (s : string) : option (ascii * string) :=
  match s with
  | "" => None
  | String c r => Some (c, r)
  end.

Definition head_is (c : ascii) (s : string) : bool :=
  match s with
  | "" => false
  | String a _ => Ascii.eqb a c
  end.







(** [d[k] = v] on an insertion-ordered dict. *)
Fixpoint assoc_set {A} (k : string) (v : A) (d : list (string * A))
  : list (string * A) :=
  match d with
  | [] => [(k, v)]
  | (k', v') :: d' =>
      if decide (k' = k) then (k, v) :: d' else (k', v') :: assoc_set k v d'
  end.


Section JsonRead.

(** [float(text)] on the text of a number, given by the [repr] of the
    float it reads; [None] when it raises. *)
Variable float_of_text : string → option string.




End JsonRead.

(** ** The per-tool structure of a row and its stored form

    [parse_json_file] collects, for every tool name in order of first
    appearance, the list of the records of its calls, and stores the JSON
    text of that dict in the column [all_tool_calls]. *)

(** [groups[t].append(x)], after [groups[t] = []] for a new [t]. *)
Definition group_append {A} (t : string) (x : A) (groups : list (string * list A))
  : list (string * list A) :=
  assoc_set t (default [] (assoc_get t groups) ++ [x]) groups.

Definition group_by_tool {A} (f : call → A) (cs : list call)
  : list (string * list A) :=
  fold_left (λ groups c, group_append (tool c) (f c) groups) cs [].




(** What [build_all_calls_summary] reads for one call: its arguments, its
    output and its status. *)
Definition entry : Type := pyval * pyval * outcome.

(** The three shapes of the summary.  Its rendering as a text is not
    modelled. *)
Inductive summary : Type :=
| NoCalls                    (* [No tool calls recorded] *)
| Unparsed (text : string)   (* the first 2000 characters of the column *)
| Entries (groups : list (string * list entry)).

#[global] Instance summary_eq_dec : EqDecision summary.
Proof. solve_decision. Defined.














Definition eval_years (text : string) : option pyval :=
  if decide (text = "{'years': (2020, 2021)}")
  then Some (PDict [("years", PTuple [PInt 2020; PInt 2021])])
  else None.




(** Two calls of one tool around a call of another, with arguments that
    JSON represents. *)
Definition calls_with_retry : list call :=
  [Call "2_get_indicators" (PDict [("dataset", PStr "CPI")]) 2 "{}" false false;
   Call "3_get_metadata"
     (PDict [("dataset", PStr "CPI"); ("indicator_code", PInt 3)])
     9 "timed out" false false;
   Call "2_get_indicators" (PDict [("dataset", PStr "cpi")]) 2 "[]" false false].

(** A text of decimal digits, and a text that cannot continue a number. *)
Fixpoint all_digits (s : string) : bool :=
  match s with
  | "" => true
  | String a s' => is_digit a && all_digits s'
  end.

Definition ends_number (rest : string) : bool :=
  match rest with
  | "" => true
  | String c _ =>
      negb (is_digit c || Ascii.eqb c "." || Ascii.eqb c "e" || Ascii.eqb c "E")
  end.






(** ** Further reference definitions *)

(** A list without two equal neighbours. *)
Fixpoint adjacent_distinct (l : list ascii) : bool :=
  match l with
  | a :: (b :: _) as tl => negb (bool_decide (a = b)) && adjacent_distinct tl
  | _ => true
  end.

Fixpoint no_underscore (s : string) : bool :=
  match s with
  | "" => true
  | String a s' => negb (Ascii.eqb a "_") && no_underscore s'
  end.

(** The step of the protocol that a call is, when its tool is one of the
    four. *)
Definition step_number (c : call) : option ascii :=
  if decide (tool c = "1_know_about_mospi_api") then Some "1"%char
  else if decide (tool c = "2_get_indicators") then Some "2"%char
  else if decide (tool c = "3_get_metadata") then Some "3"%char
  else if decide (tool c = "4_get_data") then Some "4"%char
  else None.

(** A call of the protocol whose arguments are a dict, with a dataset and
    an indicator code that are rendered without an underscore. *)
Definition plain_step (py_str : pyval → string) (c : call) : Prop :=
  is_Some (step_number c)
  ∧ ∃ d, args c = PDict d
         ∧ no_underscore
             (fmt py_str (default (PStr "?") (assoc_get "dataset" d))) = true
         ∧ no_underscore
             (fmt py_str (default (PStr "?") (assoc_get "indicator_code" d)))
           = true.

(** [str(v)] of the scalars, the instance used in the examples. *)
Definition str_scalar (v : pyval) : string :=
  match v with
  | PNone => "None"
  | PBool true => "True"
  | PBool false => "False"
  | PInt z => pretty z
  | PFloat r => r
  | PStr s => s
  | _ => ""
  end.

(** The lines of a log, trimmed, on which a pattern of the parser
    matches. *)
Definition is_tool_line (line : string) : bool :=
  bool_decide (is_Some (re_tool (strip line))).

Definition is_output_line (line : string) : bool :=
  bool_decide (is_Some (re_output (strip line))).

Definition count_lines (p : string → bool) (log : string) : nat :=
  length (filter (λ l, p l = true) (split_lines log)).

(** What every call that the parser emits satisfies. *)
Definition emitted_ok (c : call) : Prop :=
  tool c ≠ "" ∧ output c ≠ ""
  ∧ 0 ≤ output_size c
  ∧ has_data c = has_data_of (output c)
  ∧ is_error c = is_error_of (output c)
  ∧ (has_data c && is_error c = false)
  ∧ (args c = PDict [] ∨ truthy (args c) = true).

(** The number of calls that the scanner has opened and not yet emitted. *)
Definition pending_calls (st : scan_state) : nat :=
  match tool_pending st with Some _ => 1%nat | None => 0%nat end.

(** ** A well-formed telemetry record

    The lines that the three patterns of the parser recognise for one call:
    the tool line, an optional arguments line and the output line. *)

Fixpoint no_newline (s : string) : bool :=
  match s with
  | "" => true
  | String a s' => negb (Ascii.eqb a newline) && no_newline s'
  end.

(** A text whose last character exists and is not whitespace. *)
Fixpoint ends_visible (s : string) : bool :=
  match s with
  | "" => false
  | String a "" => negb (py_isspace a)
  | String _ s' => ends_visible s'
  end.

Definition line_piece (s : string) : bool := no_newline s && ends_visible s.

Record telemetry : Type := Telemetry {
  t_tool : string;
  t_args : option string;
  t_size : string;
  t_output : string;
}.

Definition telemetry_lines (r : telemetry) : list string :=
  ["[TELEMETRY] Tool: " +:+ t_tool r]
  ++ match t_args r with
     | Some a => ["[TELEMETRY] Args: " +:+ a]
     | None => []
     end
  ++ ["[TELEMETRY] Output (" +:+ t_size r +:+ " bytes): " +:+ t_output r].

Definition telemetry_ok (r : telemetry) : Prop :=
  line_piece (t_tool r) = true
  ∧ match t_args r with Some a => line_piece a = true | None => True end
  ∧ t_size r ≠ "" ∧ all_digits (t_size r) = true
  ∧ line_piece (t_output r) = true.

(** The call that the parser builds from a record. *)
Definition call_of (py_eval : string → option pyval) (r : telemetry) : call :=
  {| tool := t_tool r;
     args := match t_args r with
             | Some a => py_or (default (PStr a) (py_eval a)) (PDict [])
             | None => PDict []
             end;
     output_size := digits_to_Z (t_size r);
     output := t_output r;
     has_data := has_data_of (t_output r);
     is_error := is_error_of (t_output r) |}.

Definition telemetry_log (recs : list telemetry) : string :=
  join (String newline "") (concat (telemetry_lines <$> recs)).

(** Two records: a call with arguments that do not evaluate, and a call
    without an arguments line. *)
Definition example_records : list telemetry :=
  [Telemetry "2_get_indicators" (Some "{'dataset': CPI}") "17"
     "{'indicators': []}";
   Telemetry "4_get_data" None "2" "{}"].

(** A row of the judge file after a pass that marks the updated queries for
    re-judging. *)
Definition marked (int_of_text : string → option Z) (updated_queries : list key)
    (r : csv_row) : csv_row :=
  match existing_key int_of_text (as_read r) with
  | Some k => if decide (k ∈ updated_queries) then cleared r else r
  | None => r
  end.

(** An incoming row whose number is not an integer text. *)
Definition unnumbered_row : row :=
  {[ "dataset" := CStr "CPI"; "no" := CStr "two" ]}.


(** ** The other columns of a row (parse_results.py, [parse_json_file]) *)

(** The loop of [extract_get_data_args] over [reversed(calls)]: it returns
    at the first call of the data tool with [args.get("filters", args)];
    [None] is the [AttributeError] on arguments that are not a dict. *)
Fixpoint extract_from (reversed_calls : list call) : option pyval :=
  match reversed_calls with
  | [] => Some (PDict [])
  | c :: rest =>
      if decide (tool c = "4_get_data")
      then args_get "filters" (args c) (args c)
      else extract_from rest
  end.

Definition extract_get_data_args (cs : list call) : option pyval :=
  extract_from (reverse cs).

(** [(tool_all_outputs.get(t) or [""])[-1]]: the column that holds the
    output of a tool. *)
Definition last_output (t : string) (cs : list call) : string :=
  let outs := match assoc_get t (group_by_tool output cs) with
              | Some (o :: l) => o :: l
              | _ => [""]
              end in
  default "" (last outs).

(** The tools whose token in the trace reads the arguments of the call. *)
Definition protocol_tools : list string :=
  ["2_get_indicators"; "3_get_metadata"; "4_get_data"].

Definition is_dict (v : pyval) : bool :=
  match v with PDict _ => true | _ => false end.

(** A call of the data tool with its filters, between calls of other
    tools. *)
Definition calls_with_filters : list call :=
  [Call "4_get_data" (PDict [("dataset", PStr "CPI")]) 2 "{}" false false;
   Call "4_get_data"
     (PDict [("dataset", PStr "CPI");
             ("filters", PDict [("state_code", PStr "4")])]) 2 "{}" false false;
   Call "3_get_metadata" (PDict [("dataset", PStr "CPI")]) 2 "{}" false false].


(** ** Updating one row of a file (rerun_failed.py, [update_benchmark_csv]) *)

Section Update.

Variable int_of_text : string → option Z.




End Update.

(** ** The response columns (parse_results.py, [parse_json_file]) *)

(** [response.replace("\n", "\\n")]: a line feed becomes a backslash and
    the letter n. *)
Fixpoint escape_newlines (s : string) : string :=
  match s with
  | "" => ""
  | String a s' =>
      if Ascii.eqb a newline
      then String "092" (String "n" (escape_newlines s'))
      else String a (escape_newlines s')
  end.

(** The column [response_short]:
<<
  response_short = response[:500].replace("\n", " ").strip()
  if len(response) > 500: response_short += "..."
>> *)
Definition response_short (response : string) : string :=
  let short := strip (replace_newlines (prefix_n 500 response)) in
  if decide (500 < String.length response)%nat then short +:+ "..." else short.

Definition response_full (response : string) : string :=
  escape_newlines response.

(** Calls whose arguments did not evaluate: a text that names no dataset,
    then a text that holds the word. *)
Definition calls_with_raw_arguments : list call :=
  [Call "1_know_about_mospi_api" (PStr "{broken") 2 "{}" false false;
   Call "2_get_indicators" (PStr "{'dataset': CPI}") 2 "{}" false false;
   Call "3_get_metadata" (PDict [("dataset", PStr "CPI")]) 2 "{}" false false].


(** * Properties *)

(** Closed decidable goals are settled by evaluating their decision
    procedure. *)
Ltac by_evaluation := apply (bool_decide_unpack _); vm_compute; exact I.

(** ** Text *)

Lemma app_cons (a : ascii) (s t : string) :
  String a s +:+ t = String a (s +:+ t).
Proof. reflexivity. Qed.

Lemma app_empty_l (s : string) : "" +:+ s = s.
Proof. reflexivity. Qed.

Lemma app_empty_r (s : string) : s +:+ "" = s.
Proof. induction s as [|a s IH]; [done|]. by rewrite app_cons, IH. Qed.


Lemma strip_prefix_Some (p s r : string) :
  strip_prefix p s = Some r ↔ s = p +:+ r.
Proof.
  revert s. induction p as [|a p IH]; intros s; cbn.
  - rewrite app_empty_l. split; [by intros [= ->] | by intros ->].
  - rewrite app_cons.
    destruct s as [|b s]; [split; [done | intros [=]]|].
    destruct (Ascii.eqb_spec a b) as [->|Hne].
    + rewrite IH. split; [by intros -> | by intros [= ->]].
    + split; [done | intros [= -> ?]; done].
Qed.

Lemma starts_with_spec (p s : string) :
  starts_with p s = true ↔ ∃ r, s = p +:+ r.
Proof.
  unfold starts_with. rewrite bool_decide_eq_true. unfold is_Some.
  by setoid_rewrite strip_prefix_Some.
Qed.

(** [contains] decides the occurrence of the needle as a factor. *)
Lemma contains_spec (needle hay : string) :
  contains needle hay = true ↔ ∃ a b, hay = a +:+ needle +:+ b.
Proof.
  induction hay as [|x hay IH]; cbn [contains];
    rewrite orb_true_iff, starts_with_spec.
  - split.
    + intros [[r Hr]|]; [|done]. by exists "", r.
    + intros ([|y a] & b & Hab); [left; by exists b|].
      by rewrite app_cons in Hab.
  - rewrite IH. split.
    + intros [[r Hr]|(a & b & ->)]; [by exists "", r|].
      by exists (String x a), b.
    + intros ([|y a] & b & Hab); [left; by exists b|].
      right. rewrite app_cons in Hab. injection Hab as -> ->. by exists a, b.
Qed.

Lemma prefix_n_idemp (n : nat) (s : string) :
  prefix_n n (prefix_n n s) = prefix_n n s.
Proof.
  revert s. induction n as [|n IH]; intros [|a s]; cbn; try done.
  by rewrite IH.
Qed.

Lemma prefix_n_app (n : nat) (s t : string) :
  String.length s = n → prefix_n n (s +:+ t) = s.
Proof.
  revert s. induction n as [|n IH]; intros [|a s]; cbn; try done.
  intros [= Hl]. by rewrite app_cons, IH.
Qed.

(** ** Outcome classification *)

Lemma flags_exclusive (out : string) :
  has_data_of out = true → is_error_of out = false.
Proof.
  unfold has_data_of, is_error_of.
  destruct (contains (quoted "error") _); [|done].
  by rewrite andb_false_r.
Qed.

Lemma scan_line_calls (py_eval : string → option pyval) (P : call → Prop)
    (st : scan_state) (line : string) :
  (∀ t a ds o,
     P (Call t a (digits_to_Z ds) o (has_data_of o) (is_error_of o))) →
  Forall P (calls st) → Forall P (calls (scan_line py_eval st line)).
Proof.
  intros HP Hst. unfold scan_line.
  destruct (re_tool _); [done|].
  destruct (re_args _); [done|].
  destruct (_ && _); [done|].
  destruct (re_output _) as [[ds o]|]; [|done].
  destruct (tool_pending st); [|done].
  cbn. apply Forall_app. split; [done|]. by constructor.
Qed.

Lemma parse_tool_calls_Forall (py_eval : string → option pyval)
    (P : call → Prop) (log : string) :
  (∀ t a ds o,
     P (Call t a (digits_to_Z ds) o (has_data_of o) (is_error_of o))) →
  Forall P (parse_tool_calls py_eval log).
Proof.
  intros HP. unfold parse_tool_calls. case_decide; [done|].
  generalize (split_lines log). intros ls.
  assert (Forall P (calls (Scan None PNone []))) as H0 by constructor.
  revert H0. generalize (Scan None PNone []).
  induction ls as [|l ls IH]; intros st Hst; cbn; [done|].
  apply IH. by apply scan_line_calls.
Qed.

(** C1. The outcome of a call is a function of the first 300 characters
    of its output text: ERROR_OR_TIMEOUT when they contain both the marker
    ["error"] and [timed out]; otherwise HAS_DATA when they contain the
    marker ["data"] and not ["error"]; otherwise EMPTY_NO_DATA.  Every call
    that [parse_tool_calls] emits carries the flags of that outcome. *)
Theorem C1_outcome_classification (out : string) :
  output_outcome out = output_outcome (prefix_n 300 out)
  ∧ output_outcome out =
      (let p := prefix_n 300 out in
       if contains (quoted "error") p && contains "timed out" p
       then ERROR_OR_TIMEOUT
       else if contains (quoted "data") p && negb (contains (quoted "error") p)
            then HAS_DATA
            else EMPTY_NO_DATA)
  ∧ ∀ (py_eval : string → option pyval) (log : string),
      Forall (λ c, call_outcome c = output_outcome (output c))
             (parse_tool_calls py_eval log).
Proof.
  split; [|split].
  - unfold output_outcome, has_data_of, is_error_of.
    by rewrite prefix_n_idemp.
  - unfold output_outcome, status_of, has_data_of, is_error_of. cbn zeta.
    destruct (contains (quoted "error") _), (contains "timed out" _),
      (contains (quoted "data") _); reflexivity.
  - intros py_eval log. apply parse_tool_calls_Forall. reflexivity.
Qed.

(** An error that timed out wins over a data marker that comes after the
    first 300 characters, and over one inside them. *)
Example outcome_error_then_data :
  let pad := String.concat "" (replicate 300 " ") in
  output_outcome ("{" +:+ quoted "error" +:+ ": timed out" +:+ pad
                  +:+ quoted "data" +:+ ": [1]}") = ERROR_OR_TIMEOUT
  ∧ output_outcome ("{" +:+ quoted "error" +:+ ": timed out, "
                  +:+ quoted "data" +:+ ": [1]}") = ERROR_OR_TIMEOUT
  ∧ output_outcome ("{" +:+ quoted "data" +:+ ": [1]}") = HAS_DATA
  ∧ output_outcome ("{" +:+ quoted "error" +:+ ": no rows}") = EMPTY_NO_DATA.
Proof. vm_compute. done. Qed.

(** ** The order verifier *)

Lemma collapse_cons_same (x : ascii) (l : list ascii) :
  collapse (x :: x :: l) = collapse (x :: l).
Proof. cbn [collapse]. by rewrite decide_True. Qed.

Lemma fold_dedup_step (rest acc : list ascii) (x : ascii) :
  fold_left dedup_step rest (acc ++ [x]) = acc ++ collapse (x :: rest).
Proof.
  revert acc x. induction rest as [|t rest IH]; intros acc x; [done|].
  cbn [fold_left]. unfold dedup_step at 2. rewrite last_snoc.
  destruct (decide (Some x = Some t)) as [[= ->]|Hne].
  - by rewrite IH, collapse_cons_same.
  - rewrite IH. cbn [collapse]. rewrite decide_False by congruence.
    by rewrite <-app_assoc.
Qed.

(** The loop of the source computes the collapse. *)
Lemma dedup_retries_collapse (tool_nums : list ascii) :
  dedup_retries tool_nums = collapse tool_nums.
Proof.
  destruct tool_nums as [|t0 rest]; [done|].
  unfold dedup_retries. apply (fold_dedup_step rest [] t0).
Qed.

Lemma collapse_cons_congr (a : ascii) (l1 l2 : list ascii) :
  head l1 = head l2 → collapse l1 = collapse l2 →
  collapse (a :: l1) = collapse (a :: l2).
Proof.
  intros Hh Hc.
  destruct l1 as [|x1 l1], l2 as [|x2 l2]; simplify_eq/=; try done.
  case_decide; by rewrite ?Hc.
Qed.

Lemma collapse_app_congr (pre l1 l2 : list ascii) :
  head l1 = head l2 → collapse l1 = collapse l2 →
  collapse (pre ++ l1) = collapse (pre ++ l2).
Proof.
  intros Hh Hc. induction pre as [|a pre IH]; [done|].
  rewrite <-!app_comm_cons. apply collapse_cons_congr; [|done].
  by destruct pre.
Qed.

Lemma collapse_replicate (n : nat) (x : ascii) (post : list ascii) :
  collapse (replicate n x ++ x :: post) = collapse (x :: post).
Proof.
  induction n as [|n IH]; [done|].
  rewrite <-IH. change (replicate (S n) x) with (x :: replicate n x).
  rewrite <-app_comm_cons. destruct n as [|n]; apply collapse_cons_same.
Qed.

Lemma head_replicate_cons (n : nat) (x : ascii) (post : list ascii) :
  head (replicate n x ++ x :: post) = Some x.
Proof. by destruct n. Qed.

(** The pointer reaches the end exactly when the part of the required
    order that is still to be matched is a subsequence of what is left. *)
Lemma walk_from_spec (l : list ascii) (idx : nat) :
  (idx ≤ 4)%nat →
  fold_left advance l idx = 4%nat ↔ drop idx required_order `sublist_of` l.
Proof.
  revert idx. induction l as [|t l IH]; intros idx Hle.
  - cbn [fold_left]. rewrite sublist_nil_r.
    do 5 (destruct idx as [|idx]; [by split|]). lia.
  - cbn [fold_left].
    destruct (decide (idx = 4%nat)) as [->|Hne].
    + change (advance 4 t) with 4%nat. rewrite IH by done.
      cbn. split; intros _; apply sublist_nil_l.
    + assert (idx < 4)%nat as Hlt by lia.
      destruct (required_order !! idx) as [r|] eqn:Hr;
        [|apply lookup_ge_None in Hr; cbn in Hr; lia].
      rewrite (drop_S _ _ _ Hr). unfold advance.
      rewrite bool_decide_eq_true_2 by (cbn; lia). rewrite Hr. cbn [andb].
      case_bool_decide as Heq.
      * injection Heq as ->. by rewrite IH, sublist_skip_iff by lia.
      * rewrite IH by lia. rewrite (drop_S _ _ _ Hr).
        rewrite sublist_cons_ne; [done|congruence].
Qed.

Lemma order_verifier_nil : order_verifier [] = 0.
Proof. reflexivity. Qed.

Lemma order_verifier_sublist (tool_nums : list ascii) :
  order_verifier tool_nums =
    if decide (required_order `sublist_of` dedup_retries tool_nums)
    then 1 else 0.
Proof.
  unfold order_verifier, walk_required.
  destruct (decide (tool_nums = [])) as [->|Hne].
  - rewrite decide_False; [done|]. by intros ?%sublist_nil_r.
  - pose proof (walk_from_spec (dedup_retries tool_nums) 0 ltac:(lia)) as H.
    change (drop 0 required_order) with required_order in H.
    repeat case_decide; tauto.
Qed.

Lemma auto_score_ordering_trace (r : csv_row) :
  auto_score_ordering r =
    order_verifier (findall_digit_underscore (row_get r "tool_trace" "")).
Proof.
  unfold auto_score_ordering. case_decide as H; [by rewrite H|done].
Qed.

(** C2. The order verifier passes exactly when the required order
    1,2,3,4 is a subsequence of the tool numbers with consecutive
    duplicates collapsed; elements that do not match the pointer are
    skipped.  It fails on 2,1,3,4, passes on 1,1,2,3,3,3,4 and fails on the
    empty sequence.  [auto_score_ordering] is this verifier applied to the
    tool numbers found in the trace. *)
Theorem C2_order_verifier_subsequence :
  (∀ tool_nums : list ascii,
     dedup_retries tool_nums = collapse tool_nums
     ∧ order_verifier tool_nums =
         if decide (required_order `sublist_of` collapse tool_nums)
         then 1 else 0)
  ∧ order_verifier ["2"; "1"; "3"; "4"]%char = 0
  ∧ order_verifier ["1"; "1"; "2"; "3"; "3"; "3"; "4"]%char = 1
  ∧ order_verifier [] = 0
  ∧ ∀ r : csv_row,
      auto_score_ordering r =
        order_verifier (findall_digit_underscore (row_get r "tool_trace" "")).
Proof.
  split; [|split; [|split; [|split]]]; try reflexivity.
  - intros tool_nums. split; [apply dedup_retries_collapse|].
    by rewrite order_verifier_sublist, dedup_retries_collapse.
  - apply auto_score_ordering_trace.
Qed.

(** C6. Inserting any number of copies of a tool number next to an
    occurrence of the same number changes neither the collapsed sequence
    nor the verdict of the order verifier. *)
Theorem C6_retry_insertion_invariant
    (pre post : list ascii) (x : ascii) (n : nat) :
  dedup_retries (pre ++ replicate n x ++ x :: post)
    = dedup_retries (pre ++ x :: post)
  ∧ order_verifier (pre ++ replicate n x ++ x :: post)
    = order_verifier (pre ++ x :: post).
Proof.
  assert (dedup_retries (pre ++ replicate n x ++ x :: post)
          = dedup_retries (pre ++ x :: post)) as Hd.
  { rewrite !dedup_retries_collapse. apply collapse_app_congr.
    - by rewrite head_replicate_cons.
    - apply collapse_replicate. }
  split; [done|].
  by rewrite !order_verifier_sublist, Hd.
Qed.

(** ** The routing verifier *)

Lemma N_of_upper_char (a : ascii) :
  N_of_ascii (upper_char a)
  = (if is_lower a then N_of_ascii a - 32 else N_of_ascii a)%N.
Proof.
  unfold upper_char. destruct (is_lower a) eqn:Hl; [|done].
  apply N_ascii_embedding. pose proof (N_ascii_bounded a). lia.
Qed.

Lemma N_of_ascii_inj (a b : ascii) : N_of_ascii a = N_of_ascii b → a = b.
Proof.
  intros H. by rewrite <-(ascii_N_embedding a), <-(ascii_N_embedding b), H.
Qed.

Lemma upper_char_same_letter (a b : ascii) :
  upper_char a = upper_char b ↔ same_letter a b = true.
Proof.
  transitivity (N_of_ascii (upper_char a) = N_of_ascii (upper_char b)).
  { split; [by intros -> | apply N_of_ascii_inj]. }
  rewrite !N_of_upper_char. unfold same_letter, is_lower.
  generalize (N_of_ascii a) (N_of_ascii b). intros n m.
  destruct (N.leb_spec 97 n), (N.leb_spec n 122),
    (N.leb_spec 97 m), (N.leb_spec m 122); cbn [andb orb];
    rewrite ?orb_false_r, ?orb_true_iff, ?N.eqb_eq; lia.
Qed.

Lemma upper_ci_eqb (s t : string) : upper s = upper t ↔ ci_eqb s t = true.
Proof.
  revert t. induction s as [|a s IH]; intros [|b t]; cbn; try done.
  rewrite andb_true_iff, <-IH, <-upper_char_same_letter.
  split; [by intros [= -> ->] | by intros [-> ->]].
Qed.

Lemma upper_empty (s : string) : upper s = "" ↔ s = "".
Proof. by destruct s. Qed.

(** [auto_score_routing] is 1 exactly when the trimmed actual label is
    not empty and equals the trimmed expected label up to case. *)
Lemma auto_score_routing_spec (r : csv_row) :
  auto_score_routing r =
    (let expected := strip (row_get r "dataset" "") in
     let actual := strip (row_get r "dataset_routed_to" "") in
     if decide (actual = "") then 0
     else if ci_eqb expected actual then 1 else 0).
Proof.
  unfold auto_score_routing. cbn zeta.
  set (e := strip (row_get r "dataset" "")).
  set (a := strip (row_get r "dataset_routed_to" "")).
  destruct (decide (a = "")) as [->|Hne]; [done|].
  rewrite decide_False by by rewrite upper_empty.
  destruct (ci_eqb e a) eqn:Hci.
  - apply upper_ci_eqb in Hci. by rewrite decide_True.
  - rewrite decide_False; [done|]. intros H. symmetry in H.
    apply upper_ci_eqb in H. congruence.
Qed.

Lemma probe_named (a : pyval) :
  probe_dataset a ≠ Raised →
  probe_dataset a = match named_dataset a with
                    | Some v => Found v
                    | None => Absent
                    end.
Proof.
  unfold probe_dataset, named_dataset, py_in. intros H.
  destruct a as [| | | |s|l|l|d]; try done.
  - by destruct (contains _ _).
  - by case_bool_decide.
  - by case_bool_decide.
  - case_bool_decide as Hd.
    + destruct Hd as [v Hv]. by rewrite Hv.
    + destruct (assoc_get "dataset" d) eqn:E; [by destruct Hd; eexists|].
      clear H. by destruct (assoc_get "filters" d) as [[| | | | | | |f]|].
Qed.

Lemma probe_dict_total (d : list (string * pyval)) :
  probe_dataset (PDict d) ≠ Raised.
Proof.
  unfold probe_dataset, py_in. case_bool_decide as Hd.
  - destruct Hd as [v Hv]. by rewrite Hv.
  - destruct (assoc_get "filters" d) as [[| | | | | | |f]|]; try done.
    by destruct (assoc_get "dataset" f).
Qed.

Lemma detect_first_named (cs : list call) :
  Forall (λ c, probe_dataset (args c) ≠ Raised) cs →
  detect_dataset_used cs
  = Some (default (PStr "") (head (omap (λ c, named_dataset (args c)) cs))).
Proof.
  induction 1 as [|c cs Hc _ IH]; [done|].
  cbn [detect_dataset_used omap list_omap]. rewrite (probe_named _ Hc).
  destruct (named_dataset (args c)); [done|]. by rewrite IH.
Qed.

(** C5. The routing verifier passes exactly when the actual label,
    trimmed, is not empty and equals the trimmed expected label up to the
    case of letters: CPI against cpi passes, an empty actual label fails.
    The actual label is the dataset named by the first call, in call
    order, whose arguments name one, directly or under [filters]; without
    such a call it is empty.  (The calls are those on which the lookup
    does not raise, which holds for every call whose arguments are a
    dict.) *)
Theorem C5_routing_verifier (r : csv_row) (cs : list call)
    (Hcs : Forall (λ c, probe_dataset (args c) ≠ Raised) cs) :
  auto_score_routing r =
    (let expected := strip (row_get r "dataset" "") in
     let actual := strip (row_get r "dataset_routed_to" "") in
     if decide (actual = "") then 0
     else if ci_eqb expected actual then 1 else 0)
  ∧ auto_score_routing {[ "dataset" := "CPI"; "dataset_routed_to" := "cpi" ]} = 1
  ∧ auto_score_routing {[ "dataset" := "CPI"; "dataset_routed_to" := "" ]} = 0
  ∧ auto_score_routing {[ "dataset" := "CPI"; "dataset_routed_to" := "PLFS" ]} = 0
  ∧ detect_dataset_used cs
    = Some (default (PStr "") (head (omap (λ c, named_dataset (args c)) cs)))
  ∧ ∀ d : list (string * pyval), probe_dataset (PDict d) ≠ Raised.
Proof.
  split; [apply auto_score_routing_spec|].
  do 3 (split; [by vm_compute|]).
  split; [by apply detect_first_named | apply probe_dict_total].
Qed.

Lemma C5_routing_verifier_witness :
  Forall (λ c, probe_dataset (args c) ≠ Raised) calls_nested_dataset
  ∧ detect_dataset_used calls_nested_dataset = Some (PStr "cpi").
Proof.
  assert (Forall (λ c, probe_dataset (args c) ≠ Raised) calls_nested_dataset)
    as H by (repeat constructor; by vm_compute).
  split; [exact H|].
  exact (proj1 (proj2 (proj2 (proj2 (proj2
    (C5_routing_verifier ∅ calls_nested_dataset H)))))).
Defined.

(** ** The ordering score reads the rendered trace *)

Lemma auto_score_ordering_insert (r : csv_row) (trace : string) :
  auto_score_ordering (<["tool_trace" := trace]> r)
  = order_verifier (findall_digit_underscore trace).
Proof.
  rewrite auto_score_ordering_trace. unfold row_get.
  by rewrite lookup_insert_eq.
Qed.

(** C10. The ordering score is computed from the rendered trace text: the
    tool numbers are the digits followed by an underscore anywhere in it.
    There is a log whose calls never invoke 2_get_indicators and whose
    ordering score is 1, because the name foo_2_bar of a tool called
    between the first and the third step is rendered into the trace. *)
Theorem C10_digit_underscore_in_trace
    (py_eval : string → option pyval) (py_str : pyval → string) :
  (∀ r : csv_row,
     auto_score_ordering r
     = order_verifier (findall_digit_underscore (row_get r "tool_trace" "")))
  ∧ ∃ (log : string) (cs : list call) (trace : string),
      parse_tool_calls py_eval log = cs
      ∧ Forall (λ c, tool c ≠ "2_get_indicators") cs
      ∧ summarize_tool_trace py_str cs = Some trace
      ∧ findall_digit_underscore trace = ["1"; "2"; "3"; "4"]%char
      ∧ ∀ r : csv_row, auto_score_ordering (<["tool_trace" := trace]> r) = 1.
Proof.
  split; [apply auto_score_ordering_trace|].
  exists log_without_step_2, calls_without_step_2,
    "1_know -> foo_2_bar -> 3_metadata(?,ind=?) -> 4_data(?)[EMPTY]".
  split; [by vm_compute|].
  split; [repeat constructor; by vm_compute|].
  split; [by vm_compute|].
  split; [by vm_compute|].
  intros r. rewrite auto_score_ordering_insert. by vm_compute.
Qed.

(** ** Row totals *)

(** In [main] of judge.py a score of -1 and an error marker add nothing to
    the total. *)
Lemma total_of_contribution (scores : list cell) :
  total_of scores = sum_Z (contribution <$> scores).
Proof.
  unfold total_of.
  induction scores as [|s scores IH]; [done|].
  rewrite filter_cons, fmap_cons.
  change (sum_Z (contribution s :: (contribution <$> scores)))
    with (contribution s + sum_Z (contribution <$> scores)).
  rewrite <-IH. destruct s as [t|z]; cbn [counts_in_total contribution].
  - by rewrite decide_False.
  - case_bool_decide.
    + rewrite decide_True by done. rewrite fmap_cons.
      change (sum_Z (?a :: ?l)) with (a + sum_Z l).
      cbn [int_of_cell]. lia.
    + rewrite decide_False by done. lia.
Qed.


(** ** Writing and reading rows *)

Lemma mapM_fmap_Some {A B C} (f : B → option C) (h : A → B) (g : A → C)
    (l : list A) :
  Forall (λ x, f (h x) = Some (g x)) l → mapM f (h <$> l) = Some (g <$> l).
Proof.
  induction 1 as [|x l Hx _ IH]; [done|].
  cbn. by rewrite Hx, IH.
Qed.

Lemma written_as_read (r : csv_row) : cell_text <$> as_read r = r.
Proof.
  unfold as_read. rewrite <-map_fmap_compose.
  apply map_eq. intros i. rewrite lookup_fmap. by destruct (r !! i).
Qed.

Lemma dom_as_read (r : csv_row) : dom (as_read r) = dom r.
Proof. unfold as_read. by rewrite dom_fmap_L. Qed.

Lemma fill_full (fields : gset string) (r : row) :
  fields ⊆ dom r → r ∪ gset_to_gmap (CStr "") fields = r.
Proof.
  intros Hsub. apply map_eq. intros i. rewrite lookup_union.
  destruct (r !! i) as [c|] eqn:Hi; [by destruct (gset_to_gmap _ _ !! i)|].
  rewrite lookup_gset_to_gmap, option_guard_False; [done|].
  intros Hin. apply Hsub, elem_of_dom in Hin. rewrite Hi in Hin.
  by destruct Hin.
Qed.

(** A row over exactly the columns of the header is written as it is. *)
Lemma write_row_full (fields : gset string) (r : row) :
  dom r = fields → write_row fields r = Some (cell_text <$> r).
Proof.
  intros Hd. unfold write_row. rewrite decide_True by set_solver.
  by rewrite fill_full by set_solver.
Qed.

Lemma write_row_as_read (fields : gset string) (r : csv_row) :
  dom r = fields → write_row fields (as_read r) = Some r.
Proof.
  intros Hd. rewrite write_row_full by by rewrite dom_as_read.
  by rewrite written_as_read.
Qed.

Lemma overwritten_lookup (new : row) (r : csv_row) (f : string) :
  overwritten new r !! f
  = match new !! f with Some c => Some (cell_text c) | None => r !! f end.
Proof.
  unfold overwritten. rewrite lookup_union, lookup_fmap.
  destruct (new !! f), (r !! f); done.
Qed.

Lemma write_row_overwritten (fields : gset string) (new : row) (r : csv_row) :
  dom r = fields → dom new ⊆ fields →
  write_row fields (new ∪ as_read r) = Some (overwritten new r).
Proof.
  intros Hd Hsub. rewrite write_row_full.
  - unfold overwritten. by rewrite map_fmap_union, written_as_read.
  - rewrite dom_union_L, dom_as_read, Hd. by apply subseteq_union_1_L.
Qed.

(** ** Merging into the benchmark ledger *)

Section MergeProps.

Variable int_of_text : string → option Z.

Lemma incoming_key_is_Some (platform mode : string) (r : row) :
  is_Some (row_no int_of_text r) →
  is_Some (incoming_key int_of_text platform mode r).
Proof. intros [n Hn]. unfold incoming_key. rewrite Hn. by eexists. Qed.

Lemma existing_key_is_Some (r : row) :
  is_Some (row_no int_of_text r) → is_Some (existing_key int_of_text r).
Proof. intros [n Hn]. unfold existing_key. rewrite Hn. by eexists. Qed.

(** [new_lookup] maps a key to the last incoming row that has it. *)
Lemma build_lookup_spec (platform mode : string) (new_rows : list row)
    (acc : gmap key row) :
  Forall (λ r, is_Some (row_no int_of_text r)) new_rows →
  ∃ m, build_lookup int_of_text platform mode new_rows acc = Some m
       ∧ ∀ k, m !! k
              = match incoming_for int_of_text platform mode new_rows k with
                | Some r => Some r
                | None => acc !! k
                end.
Proof.
  intros Hall. revert acc.
  induction Hall as [|r rs Hr _ IH]; intros acc.
  - exists acc. split; [done|]. intros k. done.
  - destruct (incoming_key_is_Some platform mode r Hr) as [kr Hkr].
    cbn [build_lookup]. rewrite Hkr. cbn [mbind option_bind].
    destruct (IH (<[kr := r]> acc)) as (m & Hm & Hlook).
    exists m. split; [done|]. intros k. rewrite Hlook.
    unfold incoming_for. rewrite filter_cons.
    destruct (decide (incoming_key int_of_text platform mode r = Some k))
      as [Hk|Hk].
    + assert (kr = k) as -> by congruence.
      generalize (filter
        (λ r0, incoming_key int_of_text platform mode r0 = Some k) rs).
      intros [|r' l]; [by rewrite lookup_insert_eq|].
      rewrite last_cons_cons.
      destruct (last (r' :: l)) eqn:E; [done|]. by apply last_None in E.
    + destruct (last (filter _ rs)); [done|].
      rewrite lookup_insert_ne; [done|congruence].
Qed.

Lemma filter_none {A} (P : A → Prop) `{∀ x, Decision (P x)} (l : list A) :
  Forall (λ x, ¬ P x) l → filter P l = [].
Proof.
  induction 1 as [|x l Hx _ IH]; [done|].
  by rewrite filter_cons, decide_False.
Qed.

Lemma row_no_query_number (r : row) :
  row_no int_of_text r = query_number int_of_text (r !! "no").
Proof. unfold row_no, query_number. by destruct (r !! "no") as [[]|]. Qed.

Lemma existing_key_identity (r : csv_row) :
  existing_key int_of_text (as_read r) = identity_key int_of_text r.
Proof.
  unfold existing_key, identity_key. rewrite row_no_query_number.
  unfold as_read. rewrite !lookup_fmap.
  by destruct (query_number int_of_text (CStr <$> r !! "no")).
Qed.

(** The incoming rows that the code looks up for the key of a row are the
    incoming rows of the identity of the row. *)
Lemma incoming_key_same_identity (platform mode : string) (r : csv_row)
    (k : key) (new : row) :
  identity_key int_of_text r = Some k →
  incoming_key int_of_text platform mode new = Some k
  ↔ same_identity int_of_text platform mode r new.
Proof.
  unfold identity_key, incoming_key, same_identity.
  rewrite row_no_query_number.
  destruct (query_number int_of_text (CStr <$> r !! "no")) as [n|]; [|done].
  intros [= <-].
  destruct (query_number int_of_text (new !! "no")) as [n'|];
    cbn [mbind option_bind].
  - split.
    + intros [= Hp Hm Hd ->]. by rewrite Hp, Hm, Hd.
    + intros (Hp & Hm & Hd & _ & [= ->]). by rewrite Hp, Hm, Hd.
  - split; [done|]. by intros (_ & _ & _ & [? ?] & _).
Qed.

(** C3. Merging new rows into a benchmark ledger of N rows, on inputs on
    which nothing raises (every number is an integer text, the incoming
    rows use columns of the ledger), writes N rows in the original order
    with the same header.  A row with the platform, the mode, the dataset
    and the number of an incoming row has the fields of that row (of the
    last one, when there are several) written over its own, field by
    field, and keeps its other fields; every other row is unchanged; an
    incoming row with the identity of no row of the ledger adds nothing. *)
Theorem C3_merge_into_benchmark
    (file : ledger) (new_rows : list row) (platform mode : string)
    (Hwf : ledger_wf file)
    (Hold : Forall (λ r, is_Some (identity_key int_of_text r)) (lrows file))
    (Hnew : Forall (λ r : row, is_Some (query_number int_of_text (r !! "no")))
              new_rows)
    (Hcols : Forall (λ r : row, dom r ⊆ fieldnames file) new_rows) :
  ∃ (file' : ledger) (n : nat),
    merge_into_benchmark int_of_text file new_rows platform mode
      = Some (file', n)
    ∧ fieldnames file' = fieldnames file
    ∧ length (lrows file') = length (lrows file)
    ∧ lrows file'
      = merged_row int_of_text platform mode new_rows <$> lrows file
    ∧ (∀ r : csv_row,
         Forall (λ new, ¬ same_identity int_of_text platform mode r new)
           new_rows →
         merged_row int_of_text platform mode new_rows r = r)
    ∧ ∀ (new : row) (r : csv_row) (f : string),
        overwritten new r !! f
        = match new !! f with Some c => Some (cell_text c) | None => r !! f end.
Proof.
  assert (Forall (λ r, is_Some (row_no int_of_text r)) new_rows) as Hnew'.
  { eapply Forall_impl; [exact Hnew|]. intros r.
    by rewrite row_no_query_number. }
  destruct (build_lookup_spec platform mode new_rows ∅ Hnew')
    as (m & Hm & Hlook).
  assert (∀ k, m !! k = incoming_for int_of_text platform mode new_rows k)
    as Hlook'.
  { intros k. rewrite Hlook, lookup_empty. by destruct (incoming_for _ _ _ _ _). }
  clear Hlook.
  assert (∀ r, r ∈ lrows file →
            ∃ k, existing_key int_of_text (as_read r) = Some k
                 ∧ m !! k
                   = last (filter (same_identity int_of_text platform mode r)
                             new_rows)) as Hkey.
  { intros r Hr. rewrite Forall_forall in Hold.
    destruct (Hold r Hr) as [k Hk]. exists k.
    split; [by rewrite existing_key_identity|].
    rewrite Hlook'. unfold incoming_for. f_equal.
    apply list_filter_iff. intros new.
    by apply incoming_key_same_identity. }
  set (merged := λ r : csv_row,
         match last (filter (same_identity int_of_text platform mode r)
                       new_rows) with
         | Some new => (new ∪ as_read r, true)
         | None => (as_read r, false)
         end).
  assert (mapM (merge_row int_of_text m) (as_read <$> lrows file)
          = Some (merged <$> lrows file)) as Hmerge.
  { apply mapM_fmap_Some, Forall_forall. intros r Hr.
    destruct (Hkey r Hr) as (k & Hk & Hmk).
    unfold merge_row, merged. rewrite Hk. cbn [mbind option_bind].
    by rewrite Hmk. }
  assert (mapM (write_row (fieldnames file)) ((merged <$> lrows file).*1)
          = Some (merged_row int_of_text platform mode new_rows <$> lrows file))
    as Hwrite.
  { rewrite <-list_fmap_compose. apply mapM_fmap_Some, Forall_forall.
    intros r Hr. unfold merged, merged_row. cbn.
    assert (dom r = fieldnames file) as Hd.
    { unfold ledger_wf in Hwf. rewrite Forall_forall in Hwf. by apply Hwf. }
    destruct (last (filter (same_identity int_of_text platform mode r)
                      new_rows)) as [new|] eqn:Hnewrow; cbn.
    - apply write_row_overwritten; [done|].
      apply last_Some_elem_of, list_elem_of_filter in Hnewrow as [_ Hin].
      rewrite Forall_forall in Hcols. by apply Hcols.
    - by apply write_row_as_read. }
  exists (Ledger (fieldnames file)
            (merged_row int_of_text platform mode new_rows <$> lrows file)),
    (count_updated (merged <$> lrows file)).
  split; [|split; [done|split; [apply length_fmap|split; [done|split]]]].
  - unfold merge_into_benchmark, write_ledger.
    rewrite Hm. cbn. rewrite Hmerge. cbn. rewrite Hwrite. done.
  - intros r Hnone. unfold merged_row. by rewrite filter_none.
  - apply overwritten_lookup.
Qed.

End MergeProps.

Example merge_example :
  merge_into_benchmark decimal_int example_ledger example_new_rows
    "claude" "single"
  = Some (Ledger example_fields
            [example_row "CPI" "1" "ok"; example_row "CPI" "2" "ok";
             example_row "PLFS" "1" "ok"], 1%nat).
Proof. by_evaluation. Qed.

Lemma example_ledger_wf : ledger_wf example_ledger.
Proof. unfold ledger_wf. by_evaluation. Defined.

Lemma example_ledger_no :
  Forall (λ r, is_Some (row_no decimal_int (as_read r))) (lrows example_ledger).
Proof. by_evaluation. Defined.

Lemma example_ledger_keys :
  Forall (λ r, is_Some (identity_key decimal_int r)) (lrows example_ledger).
Proof. by_evaluation. Defined.

Lemma C3_merge_into_benchmark_witness :
  ∃ (file' : ledger) (n : nat),
    merge_into_benchmark decimal_int example_ledger example_new_rows
      "claude" "single" = Some (file', n)
    ∧ lrows file'
      = [example_row "CPI" "1" "ok"; example_row "CPI" "2" "ok";
         example_row "PLFS" "1" "ok"].
Proof.
  destruct (C3_merge_into_benchmark decimal_int example_ledger
              example_new_rows "claude" "single")
    as (file' & n & Hrun & _ & _ & Hrows & _).
  - exact example_ledger_wf.
  - exact example_ledger_keys.
  - by_evaluation.
  - by_evaluation.
  - exists file', n. split; [exact Hrun|]. rewrite Hrows. by_evaluation.
Defined.

(** ** Marking rows for re-judging *)

Lemma clear_field_lookup (r : row) (g f : string) :
  clear_field r g !! f
  = if decide (f = g) then (λ _, CStr "") <$> r !! f else r !! f.
Proof.
  unfold clear_field. destruct (decide (f = g)) as [->|Hne].
  - case_decide as Hg.
    + destruct Hg as [c Hc]. by rewrite lookup_insert_eq, Hc.
    + apply eq_None_not_Some in Hg. by rewrite Hg.
  - case_decide; [|done]. by rewrite lookup_insert_ne.
Qed.

Lemma clear_fields_lookup (fs : list string) (r : row) (f : string) :
  fold_left clear_field fs r !! f
  = if decide (f ∈ fs) then (λ _, CStr "") <$> r !! f else r !! f.
Proof.
  revert r. induction fs as [|g fs IH]; intros r.
  - cbn. rewrite decide_False; [done|]. apply not_elem_of_nil.
  - cbn [fold_left]. rewrite IH, clear_field_lookup.
    destruct (decide (f = g)) as [->|Hne].
    + rewrite (decide_True (P := g ∈ g :: fs))
        by (apply elem_of_cons; by left).
      case_decide; [|done]. by destruct (r !! g).
    + destruct (decide (f ∈ fs)) as [Hin|Hin].
      * by rewrite decide_True by (apply elem_of_cons; by right).
      * rewrite decide_False; [done|].
        intros [?|?]%elem_of_cons; done.
Qed.

Lemma cleared_lookup (r : csv_row) (f : string) :
  cleared r !! f
  = if decide (f ∈ downstream_fields) then (λ _, "") <$> r !! f else r !! f.
Proof.
  unfold cleared. rewrite map_lookup_imap.
  destruct (r !! f); cbn; by case_decide.
Qed.

(** The fields that the code empties are the ten downstream fields. *)
Lemma judge_fields_downstream : judge_fields = downstream_fields.
Proof. reflexivity. Qed.

Lemma written_clear_scores (r : csv_row) :
  cell_text <$> clear_scores (as_read r) = cleared r.
Proof.
  apply map_eq. intros f. unfold clear_scores, as_read.
  rewrite lookup_fmap, clear_fields_lookup, cleared_lookup, lookup_fmap.
  rewrite judge_fields_downstream.
  case_decide; by destruct (r !! f).
Qed.

Lemma dom_clear_scores (r : row) : dom (clear_scores r) = dom r.
Proof.
  apply set_eq. intros f. rewrite !elem_of_dom. unfold clear_scores.
  rewrite clear_fields_lookup. case_decide; [|done].
  by rewrite fmap_is_Some.
Qed.

Section RejudgeProps.

Variable int_of_text : string → option Z.

(** C8. With [rejudge=True], [merge_into_judge] empties the ten downstream
    judge fields (the four scores of the judge, the four notes, the total
    and the reasoning) of the rows whose identity key (platform, mode,
    dataset, number) is among the updated queries, and changes nothing
    else: every evidence field of those rows and their routing and
    ordering scores keep their value, and all the other rows are written
    back as they were read.  Without [rejudge] the file is written back
    unchanged. *)
Theorem C8_rejudge_clears_judge_fields
    (file : ledger) (updated_queries : list key)
    (Hwf : ledger_wf file)
    (Hno : Forall (λ r, is_Some (identity_key int_of_text r)) (lrows file)) :
  merge_into_judge int_of_text (Some file) updated_queries true
  = Some (Some (Ledger (fieldnames file)
                  (rejudged int_of_text updated_queries <$> lrows file)))
  ∧ (∀ (r : csv_row) (f : string),
       cleared r !! f
       = if decide (f ∈ downstream_fields) then (λ _, "") <$> r !! f
         else r !! f)
  ∧ (∀ r : csv_row,
       Forall (λ f, cleared r !! f = r !! f)
         (evidence_fields ++ auto_scored_fields))
  ∧ merge_into_judge int_of_text (Some file) updated_queries false
    = Some (Some file).
Proof.
  assert (∀ r, r ∈ lrows file →
            ∃ k, existing_key int_of_text (as_read r) = Some k
                 ∧ identity_key int_of_text r = Some k) as Hkey.
  { intros r Hr. rewrite Forall_forall in Hno.
    destruct (Hno r Hr) as [k Hk]. exists k.
    by rewrite existing_key_identity. }
  assert (∀ r, r ∈ lrows file → dom r = fieldnames file) as Hdom.
  { intros r Hr. unfold ledger_wf in Hwf. rewrite Forall_forall in Hwf.
    by apply Hwf. }
  assert (∀ b, mapM (rejudge_row int_of_text updated_queries b)
                 (as_read <$> lrows file)
               = Some ((λ r, match identity_key int_of_text r with
                             | Some k =>
                                 if decide (k ∈ updated_queries)
                                 then if b then clear_scores (as_read r)
                                      else as_read r
                                 else as_read r
                             | None => as_read r
                             end) <$> lrows file)) as Hrows.
  { intros b. apply mapM_fmap_Some, Forall_forall. intros r Hr.
    destruct (Hkey r Hr) as (k & Hk & Hid).
    unfold rejudge_row. by rewrite Hk, Hid. }
  split; [|split; [apply cleared_lookup|split]].
  - unfold merge_into_judge, write_ledger. rewrite Hrows. cbn.
    rewrite (mapM_fmap_Some _ _ (rejudged int_of_text updated_queries));
      [done|].
    apply Forall_forall. intros r Hr. unfold rejudged. cbn beta.
    destruct (identity_key int_of_text r) as [k|];
      [|apply write_row_as_read; auto].
    case_decide.
    + rewrite write_row_full.
      * by rewrite written_clear_scores.
      * rewrite dom_clear_scores, dom_as_read. auto.
    + apply write_row_as_read; auto.
  - intros r. apply Forall_forall. intros f Hf.
    rewrite cleared_lookup, decide_False; [done|].
    intros Hdown. revert Hf. unfold evidence_fields, auto_scored_fields.
    unfold downstream_fields in Hdown.
    rewrite !elem_of_cons, elem_of_nil in Hdown.
    destruct Hdown as [->|[->|[->|[->|[->|[->|[->|[->|[->|[->|[]]]]]]]]]]];
      by_evaluation.
  - unfold merge_into_judge, write_ledger. rewrite Hrows. cbn.
    rewrite (mapM_fmap_Some _ _ id).
    + rewrite list_fmap_id. by destruct file.
    + apply Forall_forall. intros r Hr. cbn beta.
      destruct (identity_key int_of_text r); [|apply write_row_as_read; auto].
      case_decide; apply write_row_as_read; auto.
Qed.

End RejudgeProps.

Example rejudge_example :
  merge_into_judge decimal_int (Some example_ledger) example_updated true
  = Some (Some (Ledger example_fields
       [example_row "CPI" "1" "ok";
        <["score_data_retrieval" := ""]>
          (<["total_score" := ""]> (example_row "CPI" "2" "timeout"));
        example_row "PLFS" "1" "ok"])).
Proof. by_evaluation. Qed.

Lemma C8_rejudge_clears_judge_fields_witness :
  merge_into_judge decimal_int (Some example_ledger) example_updated true
  = Some (Some (Ledger example_fields
       [example_row "CPI" "1" "ok";
        <["score_data_retrieval" := ""]>
          (<["total_score" := ""]> (example_row "CPI" "2" "timeout"));
        example_row "PLFS" "1" "ok"])).
Proof.
  rewrite (proj1 (C8_rejudge_clears_judge_fields decimal_int example_ledger
                    example_updated example_ledger_wf example_ledger_keys)).
  by_evaluation.
Defined.

(** ** Resuming a judging run *)

Lemma mapM_snoc {A B} (f : A → option B) (l : list A) (x : A)
    (l' : list B) (y : B) :
  mapM f l = Some l' → f x = Some y → mapM f (l ++ [x]) = Some (l' ++ [y]).
Proof.
  revert l'. induction l as [|a l IH]; intros l' Hl Hx.
  - injection Hl as <-. cbn. by rewrite Hx.
  - cbn in Hl. destruct (f a) as [b|] eqn:Hb; [|done].
    destruct (mapM f l) as [k|] eqn:Hk; [|done].
    injection Hl as <-. cbn. rewrite Hb. cbn.
    by rewrite (IH k eq_refl Hx).
Qed.

Lemma dom_out_row (r : csv_row) (reply : judge_reply) :
  dom (out_row r reply) = dom r ∪ score_fields.
Proof.
  unfold out_row. rewrite dom_union_L, dom_as_read, dom_list_to_map_L.
  cbn [fmap list_fmap fst]. by rewrite (comm_L (∪)).
Qed.

Section JudgeProps.

Variable call_judge : csv_row → judge_reply.

Lemma judge_step_unfold (out_fields : gset string) (start : Z)
    (res : list row) (file : option ledger) (j : nat) (r : csv_row) :
  judge_step call_judge out_fields start (Some (Run res file)) (j, r)
  = if decide (Z.of_nat j + 1 < start) then Some (Run res file)
    else file' ← write_ledger out_fields (res ++ [judged call_judge r]);
         Some (Run (res ++ [judged call_judge r]) (Some file')).
Proof. reflexivity. Qed.

Lemma judge_loop (fields : gset string) (start : Z) (rows : list csv_row) :
  Forall (λ r : csv_row, dom r = fields) rows →
  ∀ (j : nat) (res : list row) (W : list csv_row),
    mapM (write_row (fields ∪ score_fields)) res = Some W →
    fold_left (judge_step call_judge (fields ∪ score_fields) start)
      (imap (λ i r, ((j + i)%nat, r)) rows)
      (Some (Run res (Some (Ledger (fields ∪ score_fields) W))))
    = Some (Run
        (res ++ (judged call_judge <$> drop (Z.to_nat (start - 1) - j) rows))
        (Some (Ledger (fields ∪ score_fields)
           (W ++ (judged_text call_judge <$> drop (Z.to_nat (start - 1) - j) rows))))).
Proof.
  induction 1 as [|r rows Hr _ IH]; intros j res W HW.
  - cbn. by rewrite drop_nil, !app_nil_r.
  - cbn [imap fold_left].
    rewrite (imap_ext _ (λ i r, ((S j + i)%nat, r)))
      by (intros; cbn; f_equal; lia).
    rewrite Nat.add_0_r, judge_step_unfold.
    destruct (decide (Z.of_nat j + 1 < start)) as [Hlt|Hge].
    + rewrite (IH (S j) res W HW).
      replace (Z.to_nat (start - 1) - j)%nat
        with (S (Z.to_nat (start - 1) - S j)) by lia.
      done.
    + assert (mapM (write_row (fields ∪ score_fields)) (res ++ [judged call_judge r])
              = Some (W ++ [judged_text call_judge r])) as HW'.
      { apply mapM_snoc; [done|]. apply write_row_full.
        unfold judged. by rewrite dom_out_row, Hr. }
      unfold write_ledger. rewrite HW'.
      cbn [fmap option_fmap option_map mbind option_bind].
      rewrite (IH (S j) _ _ HW').
      replace (Z.to_nat (start - 1) - j)%nat with 0%nat by lia.
      replace (Z.to_nat (start - 1) - S j)%nat with 0%nat by lia.
      rewrite !drop_0, !fmap_cons, <-!app_assoc. done.
Qed.

(** C9. A run resumed at row N over a judge file left by an earlier run
    over the same benchmark file keeps every row of that file, unchanged
    and in order, and appends the rows judged call_judge for the queries N onward. *)
Theorem C9_resume_keeps_judged_rows
    (rows : list csv_row) (start : Z) (old : ledger) (fields : gset string)
    (Hrows : rows ≠ [])
    (Hstart : 1 < start)
    (Hbench : Forall (λ r : csv_row, dom r = fields) rows)
    (Hwf : ledger_wf old)
    (Hfields : fieldnames old = fields ∪ score_fields) :
  ∃ st : run_state,
    judge_main call_judge rows start (Some old) = Some st
    ∧ results st
      = (as_read <$> lrows old)
        ++ (judged call_judge <$> drop (Z.to_nat (start - 1)) rows)
    ∧ out_file st
      = Some (Ledger (fieldnames old)
          (lrows old ++ (judged_text call_judge <$> drop (Z.to_nat (start - 1)) rows))).
Proof.
  destruct rows as [|row0 rows']; [done|]. clear Hrows.
  destruct old as [fo ro]. cbn [fieldnames lrows] in *. subst fo.
  assert (dom row0 = fields) as Hd0 by by inversion Hbench.
  assert (mapM (write_row (fields ∪ score_fields)) (as_read <$> ro)
          = Some ro) as HW.
  { rewrite <-(list_fmap_id ro) at 2.
    apply mapM_fmap_Some, Forall_forall. intros r Hr.
    apply write_row_as_read.
    unfold ledger_wf in Hwf. rewrite Forall_forall in Hwf. by apply Hwf. }
  pose proof (judge_loop fields start (row0 :: rows') Hbench 0
                (as_read <$> ro) ro HW) as Hloop.
  rewrite Nat.sub_0_r in Hloop.
  eexists. split.
  { unfold judge_main. rewrite decide_True by done.
    rewrite Hd0. exact Hloop. }
  split; reflexivity.
Qed.

End JudgeProps.

Example resume_example :
  (λ st, (length (results st), lrows <$> out_file st))
    <$> judge_main failing_judge bench_rows 3 (Some judged_so_far)
  = Some (3%nat,
          Some (lrows judged_so_far
                ++ [cell_text <$> out_row (bench_row "3" "1_know -> 2_indicators(CPI)")
                                    (JudgeError "timeout")])).
Proof. by_evaluation. Qed.

Lemma C9_resume_keeps_judged_rows_witness :
  ∃ st : run_state,
    judge_main failing_judge bench_rows 3 (Some judged_so_far) = Some st
    ∧ out_file st
      = Some (Ledger (fieldnames judged_so_far)
          (lrows judged_so_far
           ++ (judged_text failing_judge <$> drop 2 bench_rows))).
Proof.
  destruct (C9_resume_keeps_judged_rows failing_judge bench_rows 3
              judged_so_far (dom (bench_row "" "")))
    as (st & Hrun & _ & Hfile).
  - done.
  - done.
  - by_evaluation.
  - unfold ledger_wf. by_evaluation.
  - reflexivity.
  - exists st. split; [exact Hrun | exact Hfile].
Defined.

(** ** The stored form: strings *)

Lemma length_app_str (a b : string) :
  String.length (a +:+ b) = (String.length a + String.length b)%nat.
Proof.
  induction a as [|x a IH]; [done|]. rewrite app_cons. cbn. by rewrite IH.
Qed.





(** ** The stored form: integers *)






Lemma span_digits_app (ds rest : string) :
  all_digits ds = true → ends_number rest = true →
  span_chars is_digit (ds +:+ rest) = (ds, rest).
Proof.
  intros Hall Hrest. induction ds as [|a ds IH].
  - rewrite app_empty_l. destruct rest as [|c rest]; [done|].
    cbn in *. by destruct (is_digit c).
  - rewrite app_cons. cbn in *. apply andb_true_iff in Hall as [-> Hall].
    by rewrite IH.
Qed.









(** ** The stored form: floats *)













(** ** The stored form: values *)


Section JsonProps.

Variable float_of_text : string → option string.














Lemma join_cons_cons (sep a b : string) (l : list string) :
  join sep (a :: b :: l) = a +:+ sep +:+ join sep (b :: l).
Proof. reflexivity. Qed.
















(** ** The per-tool groups *)

Lemma assoc_get_set {A} (k t : string) (v : A) (d : list (string * A)) :
  assoc_get t (assoc_set k v d)
  = if decide (k = t) then Some v else assoc_get t d.
Proof.
  induction d as [|[k' v'] d IH]; cbn.
  - by destruct (decide (k = t)).
  - destruct (decide (k' = k)) as [->|Hne]; cbn.
    + by destruct (decide (k = t)).
    + destruct (decide (k' = t)) as [->|Hne'].
      * by rewrite decide_False by done.
      * exact IH.
Qed.







Lemma group_by_tool_snoc {A} (f : call → A) (cs : list call) (c : call) :
  group_by_tool f (cs ++ [c])
  = group_append (tool c) (f c) (group_by_tool f cs).
Proof. unfold group_by_tool. by rewrite fold_left_app. Qed.



(** The group of a tool holds its calls, in call order. *)
Lemma group_by_tool_lookup {A} (f : call → A) (cs : list call) (t : string) :
  default [] (assoc_get t (group_by_tool f cs))
  = f <$> filter (λ c, tool c = t) cs.
Proof.
  induction cs as [|c cs IH] using rev_ind; [done|].
  rewrite group_by_tool_snoc, filter_app, fmap_app, <-IH.
  unfold group_append. rewrite assoc_get_set, filter_cons, filter_nil.
  destruct (decide (tool c = t)) as [->|Hne]; cbn; [done|].
  by rewrite app_nil_r.
Qed.



(** ** The stored form of the calls of a row *)








End JsonProps.



(** * Further properties *)

(** ** The order verifier on the tool numbers themselves *)

Lemma collapse_sublist (l : list ascii) : collapse l `sublist_of` l.
Proof.
  induction l as [|a l IH]; [done|].
  destruct l as [|b l]; [done|].
  cbn [collapse]. case_decide.
  - by apply sublist_cons.
  - by apply sublist_skip.
Qed.

Lemma sublist_collapse (r l : list ascii) :
  adjacent_distinct r = true → r `sublist_of` l → r `sublist_of` collapse l.
Proof.
  revert r. induction l as [|a l IH]; intros r Hr Hsub; [done|].
  destruct r as [|x r]; [apply sublist_nil_l|].
  assert (adjacent_distinct r = true) as Hr'.
  { destruct r as [|y r]; [done|]. cbn in Hr.
    by apply andb_true_iff in Hr as [_ ?]. }
  destruct l as [|b l]; [exact Hsub|].
  cbn [collapse]. destruct (decide (a = b)) as [->|Hab].
  - apply IH; [done|].
    destruct (decide (x = b)) as [->|Hxb].
    + apply sublist_skip_iff in Hsub. apply sublist_skip.
      destruct r as [|y r]; [apply sublist_nil_l|].
      cbn in Hr. apply andb_true_iff in Hr as [Hby _].
      apply negb_true_iff, bool_decide_eq_false in Hby.
      refine (proj1 (sublist_cons_ne y b r l _) Hsub). congruence.
    + exact (proj1 (sublist_cons_ne x b r (b :: l) Hxb) Hsub).
  - destruct (decide (x = a)) as [->|Hxa].
    + apply sublist_skip_iff in Hsub. apply sublist_skip. by apply IH.
    + apply sublist_cons. apply IH; [done|].
      exact (proj1 (sublist_cons_ne x a r (b :: l) Hxa) Hsub).
Qed.

(** X1. Collapsing the retries plays no part in the verdict: the order
    verifier passes exactly when 1,2,3,4 is a subsequence of the tool
    numbers as they are found. *)
Theorem order_verifier_without_collapse (tool_nums : list ascii) :
  order_verifier tool_nums
  = if is_subseq required_order tool_nums then 1 else 0.
Proof.
  rewrite order_verifier_sublist, dedup_retries_collapse.
  destruct (is_subseq required_order tool_nums) eqn:Hs.
  - apply is_subseq_spec in Hs. rewrite decide_True; [done|].
    by apply sublist_collapse.
  - rewrite decide_False; [done|]. intros Hc.
    assert (required_order `sublist_of` tool_nums) as H
      by (etrans; [exact Hc | apply collapse_sublist]).
    apply is_subseq_spec in H. congruence.
Qed.

(** X2. A passing sequence holds each of the four required tool numbers,
    and it still passes with any further tool numbers added before, between
    or after its elements. *)
Theorem order_verifier_pass_monotone (tool_nums more : list ascii)
    (Hpass : order_verifier tool_nums = 1)
    (Hsub : tool_nums `sublist_of` more) :
  order_verifier more = 1 ∧ Forall (λ t, t ∈ tool_nums) required_order.
Proof.
  rewrite order_verifier_without_collapse in Hpass.
  destruct (is_subseq required_order tool_nums) eqn:Hs; [|done].
  apply is_subseq_spec in Hs. split.
  - rewrite order_verifier_without_collapse.
    assert (required_order `sublist_of` more) as H by by etrans.
    apply is_subseq_spec in H. by rewrite H.
  - apply Forall_forall. intros t Ht.
    by eapply elem_of_sublist.
Qed.

Lemma order_verifier_pass_monotone_witness :
  order_verifier ["1"; "7"; "2"; "2"; "3"; "4"; "1"]%char = 1.
Proof.
  refine (proj1 (order_verifier_pass_monotone
                   ["1"; "2"; "3"; "4"]%char
                   ["1"; "7"; "2"; "2"; "3"; "4"; "1"]%char _ _)).
  - reflexivity.
  - by_evaluation.
Defined.

(** ** The trace keeps the order of the steps *)

Lemma no_underscore_app (a b : string) :
  no_underscore (a +:+ b) = no_underscore a && no_underscore b.
Proof.
  induction a as [|x a IH]; [done|].
  rewrite app_cons. cbn. by rewrite IH, andb_assoc.
Qed.

Lemma findall_skip (R s : string) :
  no_underscore R = true → head_is "_" s = false →
  findall_digit_underscore (R +:+ s) = findall_digit_underscore s.
Proof.
  intros HR Hs. induction R as [|a R IH]; [done|].
  cbn in HR. apply andb_true_iff in HR as [Ha HR].
  rewrite app_cons. specialize (IH HR).
  destruct R as [|b R].
  - rewrite app_empty_l in *. destruct s as [|b s]; [done|].
    cbn in Hs. cbn [findall_digit_underscore]. rewrite Hs.
    by rewrite andb_false_r.
  - rewrite app_cons in *. cbn in HR.
    apply andb_true_iff in HR as [Hb _]. apply negb_true_iff in Hb.
    cbn [findall_digit_underscore]. rewrite Hb, andb_false_r. exact IH.
Qed.

Lemma findall_token (d : ascii) (R s : string) :
  is_digit d = true → no_underscore R = true → head_is "_" s = false →
  findall_digit_underscore (String d (String "_" R) +:+ s)
  = d :: findall_digit_underscore s.
Proof.
  intros Hd HR Hs. rewrite !app_cons. cbn [findall_digit_underscore].
  change (Ascii.eqb "_" "_") with true. rewrite Hd. cbn [andb].
  by rewrite findall_skip.
Qed.

Lemma plain_step_token (py_str : pyval → string) (c : call) :
  plain_step py_str c →
  ∃ d R, step_number c = Some d
         ∧ trace_token py_str c = Some (String d (String "_" R))
         ∧ is_digit d = true ∧ no_underscore R = true.
Proof.
  intros [[n Hn] (dict & Hargs & Hds & Hind)].
  unfold step_number, trace_token, args_get in *. rewrite Hargs.
  cbn [mbind option_bind].
  set (ds := fmt py_str (default (PStr "?") (assoc_get "dataset" dict))) in *.
  set (ind := fmt py_str
                (default (PStr "?") (assoc_get "indicator_code" dict))) in *.
  repeat case_decide; simplify_eq.
  - by exists "1"%char, "know".
  - exists "2"%char, ("indicators(" +:+ ds +:+ ")").
    split; [done|]. split; [reflexivity|].
    split; [done|]. by rewrite !no_underscore_app, Hds.
  - exists "3"%char, ("metadata(" +:+ ds +:+ ",ind=" +:+ ind +:+ ")").
    split; [done|]. split; [reflexivity|].
    split; [done|]. by rewrite !no_underscore_app, Hds, Hind.
  - exists "4"%char,
      ("data(" +:+ ds +:+ ")[" +:+
       (if has_data c then "OK" else if is_error c then "ERR" else "EMPTY")
       +:+ "]").
    split; [done|]. split; [reflexivity|].
    split; [done|]. rewrite !no_underscore_app, Hds.
    by destruct (has_data c), (is_error c).
Qed.

Lemma findall_join_tokens (py_str : pyval → string) (cs : list call) :
  Forall (plain_step py_str) cs →
  ∃ parts, mapM (trace_token py_str) cs = Some parts
           ∧ findall_digit_underscore (join " -> " parts)
             = omap step_number cs
           ∧ head_is "_" (join " -> " parts) = false.
Proof.
  induction 1 as [|c cs Hc _ (parts & Hparts & Hfind & Hhead)].
  - by exists [].
  - destruct (plain_step_token py_str c Hc) as (d & R & Hd & Htok & Hdig & HR).
    exists (String d (String "_" R) :: parts).
    cbn [mapM omap list_omap]. rewrite Htok, Hparts, Hd. cbn [mbind option_bind].
    split; [done|].
    assert (Ascii.eqb d "_" = false) as Hne.
    { destruct d as [[] [] [] [] [] [] [] []]; by vm_compute in Hdig |- *. }
    destruct parts as [|p parts].
    + cbn [join]. split; [|cbn; exact Hne].
      rewrite <-(app_empty_r (String d _)), findall_token by done.
      f_equal. destruct cs as [|c' cs']; [done|]. exfalso.
      cbn in Hparts. destruct (trace_token py_str c'); [|done].
      cbn in Hparts. by destruct (mapM (trace_token py_str) cs').
    + rewrite join_cons_cons. split; [|cbn; exact Hne].
      rewrite findall_token; [|done|done|done].
      f_equal. rewrite (findall_skip " -> "); done.
Qed.

(** X3. For calls of the four protocol tools whose dataset and indicator
    code are rendered without an underscore, the trace text gives back the
    step numbers of the calls in call order, so the ordering score of the
    row is the verdict of the order verifier on the calls themselves. *)
Theorem trace_keeps_step_order (py_str : pyval → string) (cs : list call)
    (r : csv_row)
    (Hplain : Forall (plain_step py_str) cs) :
  ∃ trace : string,
    summarize_tool_trace py_str cs = Some trace
    ∧ findall_digit_underscore trace = omap step_number cs
    ∧ auto_score_ordering (<["tool_trace" := trace]> r)
      = order_verifier (omap step_number cs).
Proof.
  destruct (findall_join_tokens py_str cs Hplain) as (parts & Hp & Hf & _).
  exists (join " -> " parts). unfold summarize_tool_trace. rewrite Hp.
  split; [done|]. split; [done|].
  by rewrite auto_score_ordering_insert, Hf.
Qed.

Lemma trace_keeps_step_order_witness :
  ∃ trace : string,
    summarize_tool_trace str_scalar calls_with_retry = Some trace
    ∧ findall_digit_underscore trace = ["2"; "3"; "2"]%char.
Proof.
  destruct (trace_keeps_step_order str_scalar calls_with_retry ∅)
    as (trace & Hs & Hf & _).
  - unfold calls_with_retry.
    repeat (apply Forall_cons_2;
      [split; [by eexists
              | eexists; split; [reflexivity | split; by vm_compute]]|]).
    apply Forall_nil_2.
  - exists trace. split; [exact Hs | exact Hf].
Defined.

(** ** The line scanner *)

Lemma strip_prefix_app (p q s : string) :
  strip_prefix (p +:+ q) s = strip_prefix p s ≫= strip_prefix q.
Proof.
  revert s. induction p as [|a p IH]; intros s; [done|].
  rewrite app_cons. destruct s as [|b s]; [done|]. cbn.
  destruct (Ascii.eqb a b); [apply IH|done].
Qed.

Lemma starts_with_false (p s : string) :
  starts_with p s = false → strip_prefix p s = None.
Proof.
  unfold starts_with. intros H%bool_decide_eq_false.
  by apply eq_None_not_Some.
Qed.

(** A line that does not start with the telemetry marker leaves the state
    of the scanner as it is. *)
Lemma scan_line_other (py_eval : string → option pyval) (st : scan_state)
    (raw : string) :
  starts_with "[TELEMETRY] " (strip raw) = false →
  scan_line py_eval st raw = st.
Proof.
  intros H%starts_with_false. unfold scan_line, re_tool, re_args, re_executed,
    re_output.
  change "[TELEMETRY] Tool: " with ("[TELEMETRY] " +:+ "Tool: ").
  change "[TELEMETRY] Args: " with ("[TELEMETRY] " +:+ "Args: ").
  change "[TELEMETRY] Tool executed successfully: "
    with ("[TELEMETRY] " +:+ "Tool executed successfully: ").
  change "[TELEMETRY] Output (" with ("[TELEMETRY] " +:+ "Output (").
  rewrite !strip_prefix_app, H. cbn [mbind option_bind].
  rewrite bool_decide_eq_false_2; [done|]. by intros [? ?].
Qed.

(** X4. A log none of whose lines, trimmed, starts with the telemetry
    marker gives no call; so does the empty log. *)
Theorem parse_without_markers (py_eval : string → option pyval) (log : string)
    (Hlines : Forall (λ l, starts_with "[TELEMETRY] " (strip l) = false)
                (split_lines log)) :
  parse_tool_calls py_eval log = [].
Proof.
  unfold parse_tool_calls. case_decide; [done|].
  assert (∀ st, fold_left (scan_line py_eval) (split_lines log) st = st) as H0.
  { induction Hlines as [|l ls Hl _ IH]; intros st; [done|].
    cbn [fold_left]. by rewrite scan_line_other, IH. }
  by rewrite H0.
Qed.

Lemma parse_without_markers_witness :
  parse_tool_calls eval_years
    (join (String newline "") ["starting server"; "  Tool: 4_get_data"; ""])
  = [].
Proof.
  apply parse_without_markers. by_evaluation.
Defined.

Lemma pending_calls_le (st : scan_state) : (pending_calls st ≤ 1)%nat.
Proof. unfold pending_calls. destruct (tool_pending st); lia. Qed.

Lemma scan_line_counts (py_eval : string → option pyval) (st : scan_state)
    (raw : string) :
  (length (calls (scan_line py_eval st raw))
   + pending_calls (scan_line py_eval st raw)
   ≤ length (calls st) + pending_calls st
     + (if is_tool_line raw then 1 else 0))%nat
  ∧ (length (calls (scan_line py_eval st raw))
     ≤ length (calls st) + (if is_output_line raw then 1 else 0))%nat.
Proof.
  unfold scan_line, is_tool_line, is_output_line.
  destruct (re_tool (strip raw)) as [t|] eqn:Ht.
  - rewrite bool_decide_eq_true_2 by by eexists. cbn [calls].
    pose proof (pending_calls_le (Scan (Some t) PNone (calls st))).
    split; lia.
  - rewrite (bool_decide_eq_false_2 (is_Some None)) by by intros [? ?].
    destruct (re_args (strip raw)) as [a|].
    { cbn [calls]. unfold pending_calls, tool_pending. cbn [current_tool].
      split; lia. }
    destruct (_ && _); [split; lia|].
    destruct (re_output (strip raw)) as [[ds o]|] eqn:Ho; [|split; lia].
    rewrite bool_decide_eq_true_2 by by eexists.
    unfold pending_calls at 2.
    destruct (tool_pending st) as [t|] eqn:Hp.
    + cbn [calls]. rewrite length_app. cbn. split; lia.
    + unfold pending_calls. rewrite Hp. split; lia.
Qed.

(** X5. The parser emits at most one call for each tool line and at most
    one for each output line of the log. *)
Theorem parse_calls_bounded (py_eval : string → option pyval) (log : string) :
  (length (parse_tool_calls py_eval log) ≤ count_lines is_tool_line log)%nat
  ∧ (length (parse_tool_calls py_eval log)
     ≤ count_lines is_output_line log)%nat.
Proof.
  unfold parse_tool_calls, count_lines. case_decide; [cbn; lia|].
  assert (∀ lines st,
    (length (calls (fold_left (scan_line py_eval) lines st))
     + pending_calls (fold_left (scan_line py_eval) lines st)
     ≤ length (calls st) + pending_calls st
       + length (filter (λ l, is_tool_line l = true) lines))%nat
    ∧ (length (calls (fold_left (scan_line py_eval) lines st))
       ≤ length (calls st)
         + length (filter (λ l, is_output_line l = true) lines))%nat) as Hinv.
  { induction lines as [|l lines IH]; intros st; [cbn; lia|].
    cbn [fold_left].
    destruct (IH (scan_line py_eval st l)) as [IH1 IH2].
    destruct (scan_line_counts py_eval st l) as [H1 H2].
    rewrite !filter_cons.
    destruct (is_tool_line l), (is_output_line l);
      repeat case_decide; try done; cbn [length]; lia. }
  destruct (Hinv (split_lines log) (Scan None PNone [])) as [H1 H2].
  cbn in H1, H2. lia.
Qed.

Lemma span_digits_all (s : string) :
  all_digits (span_chars is_digit s).1 = true.
Proof.
  induction s as [|a s IH]; [done|]. cbn.
  destruct (is_digit a) eqn:Ha; [|done].
  destruct (span_chars is_digit s) as [h t]. cbn in *. by rewrite Ha.
Qed.

Lemma digit_val_nonneg (a : ascii) : is_digit a = true → 0 ≤ digit_val a.
Proof.
  unfold is_digit, digit_val. intros [H _]%andb_true_iff.
  apply N.leb_le in H. lia.
Qed.

Lemma digits_acc_nonneg (ds : string) (acc : Z) :
  all_digits ds = true → 0 ≤ acc → 0 ≤ digits_acc acc ds.
Proof.
  revert acc. induction ds as [|a ds IH]; intros acc Hall Hacc; [done|].
  cbn in *. apply andb_true_iff in Hall as [Ha Hall].
  apply IH; [done|]. pose proof (digit_val_nonneg a Ha). lia.
Qed.

Lemma dot_plus_nonempty (s g : string) : dot_plus s = Some g → g ≠ "".
Proof. unfold dot_plus. case_decide; [done|]. by intros [= <-]. Qed.

Lemma re_output_Some (line ds o : string) :
  re_output line = Some (ds, o) → all_digits ds = true ∧ o ≠ "".
Proof.
  unfold re_output. destruct (strip_prefix _ line) as [rest|]; [|done].
  cbn [mbind option_bind].
  pose proof (span_digits_all rest) as Hall.
  destruct (span_chars is_digit rest) as [ds' rest']. cbn in Hall.
  case_decide; [done|].
  destruct (strip_prefix _ rest') as [rest''|]; [|done].
  cbn [mbind option_bind].
  destruct (dot_plus rest'') as [g|] eqn:Hg; [|done].
  cbn. intros [= <- <-]. split; [done|]. by eapply dot_plus_nonempty.
Qed.

Lemma tool_pending_nonempty (st : scan_state) (t : string) :
  tool_pending st = Some t → t ≠ "".
Proof.
  unfold tool_pending. destruct (current_tool st); [|done].
  case_decide; [done|]. by intros [= <-].
Qed.

Lemma py_or_dict (a : pyval) :
  py_or a (PDict []) = PDict [] ∨ truthy (py_or a (PDict [])) = true.
Proof. unfold py_or. destruct (truthy a) eqn:H; [by right|by left]. Qed.

Lemma scan_line_emitted_ok (py_eval : string → option pyval)
    (st : scan_state) (raw : string) :
  Forall emitted_ok (calls st) →
  Forall emitted_ok (calls (scan_line py_eval st raw)).
Proof.
  intros Hst. unfold scan_line.
  destruct (re_tool _); [done|].
  destruct (re_args _); [done|].
  destruct (_ && _); [done|].
  destruct (re_output _) as [[ds o]|] eqn:Ho; [|done].
  destruct (tool_pending st) as [t|] eqn:Ht; [|done].
  apply re_output_Some in Ho as [Hds Ho].
  cbn [calls]. apply Forall_app. split; [done|].
  apply Forall_singleton. unfold emitted_ok. cbn.
  split; [by eapply tool_pending_nonempty|].
  split; [done|].
  split; [by apply digits_acc_nonneg|].
  split; [done|]. split; [done|].
  split; [|apply py_or_dict].
  destruct (has_data_of o) eqn:Hd; [|done].
  by rewrite (flags_exclusive o Hd).
Qed.

(** X6. Every call that the parser emits has a tool name and an output
    that are not empty and a size that is not negative; its two flags are
    those of its output and are never both set; its arguments are the
    empty dict or a value that is true. *)
Theorem parse_emits_well_formed_calls (py_eval : string → option pyval)
    (log : string) :
  Forall emitted_ok (parse_tool_calls py_eval log).
Proof.
  unfold parse_tool_calls. case_decide; [constructor|].
  assert (Forall emitted_ok (calls (Scan None PNone []))) as H0 by constructor.
  revert H0. generalize (Scan None PNone []). generalize (split_lines log).
  induction l as [|l ls IH]; intros st Hst; [done|].
  cbn [fold_left]. by apply IH, scan_line_emitted_ok.
Qed.

(** ** Parsing a well-formed log *)

Lemma rev_app_rev_app (s acc acc' : string) :
  String.rev_app (String.rev_app s acc) acc' = String.rev_app acc (s +:+ acc').
Proof.
  revert acc. induction s as [|a s IH]; intros acc; [done|].
  cbn [String.rev_app]. by rewrite IH.
Qed.

Lemma rev_involutive_str (s : string) : String.rev (String.rev s) = s.
Proof.
  unfold String.rev. rewrite rev_app_rev_app. cbn. apply app_empty_r.
Qed.

Lemma rev_app_visible (s acc : string) :
  ends_visible s = true →
  ∃ a r, String.rev_app s acc = String a r ∧ py_isspace a = false.
Proof.
  revert acc. induction s as [|a s IH]; intros acc Hs; [done|].
  destruct s as [|b s].
  - exists a, acc. split; [done|]. cbn in Hs. by apply negb_true_iff.
  - cbn [String.rev_app] in *. apply IH. exact Hs.
Qed.

Lemma rstrip_visible (s : string) : ends_visible s = true → rstrip s = s.
Proof.
  intros Hs. unfold rstrip, String.rev at 2.
  destruct (rev_app_visible s "" Hs) as (a & r & Heq & Ha).
  rewrite Heq. cbn [lstrip]. rewrite Ha, <-Heq.
  apply rev_involutive_str.
Qed.

Lemma ends_visible_app (p x : string) :
  ends_visible x = true → ends_visible (p +:+ x) = true.
Proof.
  intros Hx. induction p as [|a p IH]; [done|].
  rewrite app_cons. cbn [ends_visible].
  destruct (p +:+ x) eqn:E; [|done].
  destruct p; [|done]. rewrite app_empty_l in E. by subst x.
Qed.

Lemma no_newline_app (a b : string) :
  no_newline (a +:+ b) = no_newline a && no_newline b.
Proof.
  induction a as [|x a IH]; [done|].
  rewrite app_cons. cbn. by rewrite IH, andb_assoc.
Qed.

Lemma span_no_newline (s : string) :
  no_newline s = true →
  span_chars (λ a, negb (Ascii.eqb a newline)) s = (s, "").
Proof.
  induction s as [|a s IH]; [done|]. cbn.
  intros [Ha Hs]%andb_true_iff. by rewrite Ha, IH.
Qed.

Lemma dot_plus_piece (s : string) : line_piece s = true → dot_plus s = Some s.
Proof.
  unfold line_piece, dot_plus. intros [Hn Hv]%andb_true_iff.
  rewrite span_no_newline by done. cbn [fst].
  rewrite decide_False; [done|]. by intros ->.
Qed.

Lemma strip_prefix_same (p s : string) : strip_prefix p (p +:+ s) = Some s.
Proof. by apply strip_prefix_Some. Qed.

Lemma split_lines_single (l : string) :
  no_newline l = true → split_lines l = [l].
Proof.
  induction l as [|a l IH]; [done|]. cbn.
  intros [Ha Hl]%andb_true_iff. apply negb_true_iff in Ha.
  by rewrite Ha, IH.
Qed.

Lemma split_lines_cons (l s : string) :
  no_newline l = true →
  split_lines (l +:+ String newline s) = l :: split_lines s.
Proof.
  induction l as [|a l IH]; [done|]. rewrite app_cons. cbn.
  intros [Ha Hl]%andb_true_iff. apply negb_true_iff in Ha.
  by rewrite Ha, IH.
Qed.

Lemma split_lines_join (lines : list string) :
  lines ≠ [] → Forall (λ l, no_newline l = true) lines →
  split_lines (join (String newline "") lines) = lines.
Proof.
  intros Hne Hall. induction Hall as [|l ls Hl Hls IH]; [done|].
  destruct ls as [|l' ls].
  - by apply split_lines_single.
  - rewrite join_cons_cons, app_cons, app_empty_l.
    rewrite split_lines_cons, IH by done. done.
Qed.

Lemma all_digits_no_newline (ds : string) :
  all_digits ds = true → no_newline ds = true.
Proof.
  induction ds as [|a ds IH]; [done|]. cbn. intros [Ha Hds]%andb_true_iff.
  rewrite IH by done. rewrite andb_true_r.
  destruct a as [[] [] [] [] [] [] [] []]; by vm_compute in Ha |- *.
Qed.

Lemma line_piece_nonempty (s : string) : line_piece s = true → s ≠ "".
Proof. intros [_ H]%andb_true_iff ->. done. Qed.

Lemma strip_marker_line (p x : string) :
  line_piece x = true → strip (String "[" (p +:+ x)) = String "[" (p +:+ x).
Proof.
  intros [_ Hx]%andb_true_iff. unfold strip.
  change (lstrip (String "[" (p +:+ x))) with (String "[" (p +:+ x)).
  apply rstrip_visible. by apply (ends_visible_app (String "[" p)).
Qed.

Lemma scan_tool_line (py_eval : string → option pyval) (st : scan_state)
    (t : string) :
  line_piece t = true →
  scan_line py_eval st ("[TELEMETRY] Tool: " +:+ t)
  = Scan (Some t) PNone (calls st).
Proof.
  intros Ht. unfold scan_line.
  change ("[TELEMETRY] Tool: " +:+ t)
    with (String "[" ("TELEMETRY] Tool: " +:+ t)).
  rewrite strip_marker_line by done.
  change (String "[" ("TELEMETRY] Tool: " +:+ t))
    with ("[TELEMETRY] Tool: " +:+ t).
  unfold re_tool. rewrite strip_prefix_same. cbn [mbind option_bind].
  by rewrite dot_plus_piece.
Qed.

Lemma scan_args_line (py_eval : string → option pyval) (st : scan_state)
    (a : string) :
  line_piece a = true →
  scan_line py_eval st ("[TELEMETRY] Args: " +:+ a)
  = Scan (current_tool st) (default (PStr a) (py_eval a)) (calls st).
Proof.
  intros Ha. unfold scan_line.
  change ("[TELEMETRY] Args: " +:+ a)
    with (String "[" ("TELEMETRY] Args: " +:+ a)).
  rewrite strip_marker_line by done.
  change (String "[" ("TELEMETRY] Args: " +:+ a))
    with ("[TELEMETRY] Args: " +:+ a).
  change (re_tool ("[TELEMETRY] Args: " +:+ a)) with (@None string).
  unfold re_args. rewrite strip_prefix_same. cbn [mbind option_bind].
  rewrite dot_plus_piece by done. by destruct (py_eval a).
Qed.

Lemma scan_output_line (py_eval : string → option pyval) (st : scan_state)
    (t ds o : string) :
  tool_pending st = Some t → ds ≠ "" → all_digits ds = true →
  line_piece o = true →
  scan_line py_eval st ("[TELEMETRY] Output (" +:+ ds +:+ " bytes): " +:+ o)
  = Scan None PNone
      (calls st ++ [Call t (py_or (current_args st) (PDict []))
                      (digits_to_Z ds) o (has_data_of o) (is_error_of o)]).
Proof.
  intros Ht Hne Hds Ho. unfold scan_line.
  set (x := ds +:+ " bytes): " +:+ o).
  assert (line_piece x = true) as Hx.
  { unfold line_piece, x in *. apply andb_true_iff in Ho as [Hn Hv].
    rewrite !no_newline_app, Hn, (all_digits_no_newline ds Hds).
    apply andb_true_iff. split; [done|].
    by do 2 apply ends_visible_app. }
  change ("[TELEMETRY] Output (" +:+ x)
    with (String "[" ("TELEMETRY] Output (" +:+ x)).
  rewrite strip_marker_line by done.
  change (String "[" ("TELEMETRY] Output (" +:+ x))
    with ("[TELEMETRY] Output (" +:+ x).
  change (re_tool ("[TELEMETRY] Output (" +:+ x)) with (@None string).
  change (re_args ("[TELEMETRY] Output (" +:+ x)) with (@None string).
  change (re_executed ("[TELEMETRY] Output (" +:+ x)) with (@None string).
  rewrite (bool_decide_eq_false_2 (is_Some None)) by by intros [? ?].
  cbn [andb]. unfold re_output. rewrite strip_prefix_same.
  cbn [mbind option_bind]. unfold x.
  rewrite span_digits_app by done. rewrite decide_False by done.
  rewrite strip_prefix_same. cbn [mbind option_bind].
  rewrite dot_plus_piece by done. cbn [mbind option_bind]. by rewrite Ht.
Qed.

Lemma scan_record (py_eval : string → option pyval) (st : scan_state)
    (r : telemetry) :
  telemetry_ok r →
  fold_left (scan_line py_eval) (telemetry_lines r) st
  = Scan None PNone (calls st ++ [call_of py_eval r]).
Proof.
  intros (Ht & Ha & Hne & Hds & Ho). unfold telemetry_lines, call_of.
  assert (∀ v cs, tool_pending (Scan (Some (t_tool r)) v cs)
                  = Some (t_tool r)) as Hp.
  { intros v cs. unfold tool_pending. cbn.
    rewrite decide_False; [done|]. by apply line_piece_nonempty. }
  destruct (t_args r) as [a|]; cbn [app fold_left].
  - rewrite scan_tool_line, scan_args_line by done. cbn [current_tool calls].
    by rewrite (scan_output_line _ _ (t_tool r)).
  - rewrite scan_tool_line by done.
    by rewrite (scan_output_line _ _ (t_tool r)).
Qed.

Lemma parse_telemetry_log (py_eval : string → option pyval)
    (recs : list telemetry) :
  Forall telemetry_ok recs →
  parse_tool_calls py_eval (telemetry_log recs) = call_of py_eval <$> recs.
Proof.
  intros Hok.
  destruct recs as [|r0 recs0] eqn:Hrecs; [done|]. rewrite <-Hrecs in *.
  assert (telemetry_log recs ≠ "") as Hlog.
  { rewrite Hrecs. unfold telemetry_log. cbn [fmap list_fmap concat].
    unfold telemetry_lines at 1. cbn [app].
    destruct (_ ++ concat _); [by cbn|by rewrite join_cons_cons]. }
  unfold parse_tool_calls. rewrite decide_False by done.
  unfold telemetry_log. rewrite split_lines_join.
  - assert (∀ st, fold_left (scan_line py_eval)
                    (concat (telemetry_lines <$> recs)) st
                  = Scan (if decide (recs = []) then current_tool st else None)
                         (if decide (recs = []) then current_args st else PNone)
                         (calls st ++ (call_of py_eval <$> recs))) as Hfold.
    { clear Hrecs Hlog. induction Hok as [|r rs Hr _ IH]; intros st.
      - cbn. rewrite app_nil_r. by destruct st.
      - cbn [fmap list_fmap concat]. rewrite fold_left_app, scan_record by done.
        rewrite IH. cbn [calls current_tool current_args].
        rewrite <-app_assoc. cbn [app].
        rewrite (decide_False (P := r :: rs = [])) by done.
        by destruct (decide (rs = [])). }
    by rewrite Hfold.
  - rewrite Hrecs. by destruct (telemetry_lines r0).
  - clear Hrecs Hlog. apply Forall_concat, Forall_fmap.
    eapply Forall_impl; [exact Hok|]. intros r (Ht & Ha & Hne & Hds & Ho).
    unfold telemetry_lines.
    assert (∀ s, line_piece s = true → no_newline s = true) as Hn
      by (by intros s [? _]%andb_true_iff).
    assert (no_newline (t_size r) = true) as Hsz
      by by apply all_digits_no_newline.
    repeat apply Forall_app_2; repeat apply Forall_cons_2;
      try apply Forall_nil_2.
    + rewrite no_newline_app. by rewrite (Hn _ Ht).
    + destruct (t_args r) as [a|]; [|apply Forall_nil_2].
      apply Forall_singleton. rewrite no_newline_app. by rewrite (Hn _ Ha).
    + rewrite !no_newline_app. by rewrite Hsz, (Hn _ Ho).
Qed.

(** X7. A log made of well-formed records (a tool line, an optional
    arguments line and an output line for each call) is parsed into exactly
    the calls of the records, in order: the arguments are the value of the
    arguments text, the text itself when it does not evaluate, and the
    empty dict without an arguments line or for a value that is false. *)
Theorem parse_well_formed_log (py_eval : string → option pyval)
    (recs : list telemetry)
    (Hok : Forall telemetry_ok recs) :
  parse_tool_calls py_eval (telemetry_log recs) = call_of py_eval <$> recs.
Proof. by apply parse_telemetry_log. Qed.

Lemma parse_well_formed_log_witness :
  parse_tool_calls eval_years (telemetry_log example_records)
  = call_of eval_years <$> example_records.
Proof.
  apply parse_well_formed_log. unfold example_records.
  repeat (apply Forall_cons_2; [repeat split; by vm_compute|]).
  apply Forall_nil_2.
Defined.

(** ** Runs of the judge *)

Lemma auto_score_routing_range (r : csv_row) : 0 ≤ auto_score_routing r ≤ 1.
Proof. unfold auto_score_routing. cbv zeta. repeat case_decide; lia. Qed.

Lemma auto_score_ordering_range (r : csv_row) : 0 ≤ auto_score_ordering r ≤ 1.
Proof.
  unfold auto_score_ordering, order_verifier. cbv zeta.
  repeat case_decide; lia.
Qed.

Lemma out_row_benchmark_column (r : csv_row) (reply : judge_reply) (f : string) :
  f ∉ score_fields → out_row r reply !! f = CStr <$> r !! f.
Proof.
  intros Hf. unfold out_row. cbv zeta. rewrite lookup_union.
  rewrite (not_elem_of_list_to_map_1 _ f).
  - unfold as_read. rewrite lookup_fmap. by destruct (r !! f).
  - cbn [fmap list_fmap fst]. intros Hin. apply Hf.
    unfold score_fields. by apply elem_of_list_to_set.
Qed.

Section JudgeRuns.

Variable call_judge : csv_row → judge_reply.

Lemma judge_loop_skip (out_fields : gset string) (start : Z)
    (rows : list csv_row) :
  ∀ (j : nat) (st : run_state),
    Z.of_nat (j + length rows) < start →
    fold_left (judge_step call_judge out_fields start)
      (imap (λ i r, ((j + i)%nat, r)) rows) (Some st)
    = Some st.
Proof.
  induction rows as [|r rows IH]; intros j st Hlt; [done|].
  cbn [length] in Hlt. cbn [imap fold_left].
  rewrite (imap_ext _ (λ i r, ((S j + i)%nat, r)))
    by (intros; cbn; f_equal; lia).
  rewrite Nat.add_0_r. destruct st as [res file].
  rewrite judge_step_unfold, decide_True by lia.
  apply IH. lia.
Qed.

Lemma judge_loop_any (fields : gset string) (start : Z) (rows : list csv_row) :
  Forall (λ r : csv_row, dom r = fields) rows →
  ∀ (j : nat) (res : list row) (W : list csv_row) (file : option ledger),
    mapM (write_row (fields ∪ score_fields)) res = Some W →
    fold_left (judge_step call_judge (fields ∪ score_fields) start)
      (imap (λ i r, ((j + i)%nat, r)) rows) (Some (Run res file))
    = Some (Run
        (res ++ (judged call_judge <$> drop (Z.to_nat (start - 1) - j) rows))
        (match drop (Z.to_nat (start - 1) - j) rows with
         | [] => file
         | _ :: _ =>
             Some (Ledger (fields ∪ score_fields)
               (W ++ (judged_text call_judge
                        <$> drop (Z.to_nat (start - 1) - j) rows)))
         end)).
Proof.
  induction 1 as [|r rows Hr Hrows IH]; intros j res W file HW.
  - cbn. by rewrite drop_nil, app_nil_r.
  - cbn [imap fold_left].
    rewrite (imap_ext _ (λ i r, ((S j + i)%nat, r)))
      by (intros; cbn; f_equal; lia).
    rewrite Nat.add_0_r, judge_step_unfold.
    destruct (decide (Z.of_nat j + 1 < start)) as [Hlt|Hge].
    + rewrite (IH (S j) res W file HW).
      replace (Z.to_nat (start - 1) - j)%nat
        with (S (Z.to_nat (start - 1) - S j)) by lia.
      done.
    + assert (mapM (write_row (fields ∪ score_fields))
                (res ++ [judged call_judge r])
              = Some (W ++ [judged_text call_judge r])) as HW'.
      { apply mapM_snoc; [done|]. apply write_row_full.
        unfold judged. by rewrite dom_out_row, Hr. }
      unfold write_ledger. rewrite HW'.
      cbn [fmap option_fmap option_map mbind option_bind].
      rewrite (judge_loop call_judge fields start rows Hrows (S j) _ _ HW').
      replace (Z.to_nat (start - 1) - j)%nat with 0%nat by lia.
      replace (Z.to_nat (start - 1) - S j)%nat with 0%nat by lia.
      rewrite !drop_0, !fmap_cons, <-!app_assoc. done.
Qed.

(** X8. A run that starts at the first row judges every row of the
    benchmark file and writes a judge file that holds the judged rows and
    nothing else: the rows of a judge file left by an earlier run are not
    kept. *)
Theorem fresh_run_replaces_file
    (rows : list csv_row) (start : Z) (file : option ledger)
    (fields : gset string)
    (Hrows : rows ≠ [])
    (Hstart : start ≤ 1)
    (Hbench : Forall (λ r : csv_row, dom r = fields) rows) :
  judge_main call_judge rows start file
  = Some (Run (judged call_judge <$> rows)
        (Some (Ledger (fields ∪ score_fields)
                 (judged_text call_judge <$> rows)))).
Proof.
  destruct rows as [|row0 rows']; [done|]. clear Hrows.
  assert (dom row0 = fields) as Hd0 by by inversion Hbench.
  pose proof (judge_loop_any fields start (row0 :: rows') Hbench 0
                [] [] file eq_refl) as Hloop.
  replace (Z.to_nat (start - 1) - 0)%nat with 0%nat in Hloop by lia.
  rewrite drop_0 in Hloop.
  unfold judge_main. rewrite Hd0.
  replace (match file with
           | Some old => if decide (1 < start) then as_read <$> lrows old else []
           | None => []
           end) with (@nil row).
  - exact Hloop.
  - destruct file; [|done]. by rewrite decide_False by lia.
Qed.

(** X9. A run resumed at row N that finds no judge file judges the rows
    from N on and writes a judge file that holds only those: the rows
    before N are in no file.  When N is past the last row nothing is
    written. *)
Theorem resume_without_file
    (rows : list csv_row) (start : Z) (fields : gset string)
    (Hrows : rows ≠ [])
    (Hbench : Forall (λ r : csv_row, dom r = fields) rows) :
  judge_main call_judge rows start None
  = Some (Run (judged call_judge <$> drop (Z.to_nat (start - 1)) rows)
        (match drop (Z.to_nat (start - 1)) rows with
         | [] => None
         | _ :: _ =>
             Some (Ledger (fields ∪ score_fields)
                     (judged_text call_judge
                        <$> drop (Z.to_nat (start - 1)) rows))
         end)).
Proof.
  destruct rows as [|row0 rows']; [done|]. clear Hrows.
  assert (dom row0 = fields) as Hd0 by by inversion Hbench.
  pose proof (judge_loop_any fields start (row0 :: rows') Hbench 0
                [] [] None eq_refl) as Hloop.
  rewrite Nat.sub_0_r in Hloop.
  unfold judge_main. rewrite Hd0. exact Hloop.
Qed.

(** X10. A run resumed past the last row of the benchmark file judges
    nothing and leaves the judge file as it is, whatever it holds. *)
Theorem resume_past_end_changes_nothing
    (rows : list csv_row) (start : Z) (file : option ledger)
    (Hrows : rows ≠ [])
    (Hpast : Z.of_nat (length rows) < start) :
  judge_main call_judge rows start file
  = Some (Run (match file with
               | Some old => as_read <$> lrows old
               | None => []
               end) file).
Proof.
  destruct rows as [|row0 rows']; [done|]. clear Hrows.
  unfold judge_main.
  rewrite (judge_loop_skip _ start (row0 :: rows') 0) by (cbn [length] in *; lia).
  destruct file; [|done]. by rewrite decide_True by (cbn [length] in *; lia).
Qed.

End JudgeRuns.

Lemma fresh_run_replaces_file_witness :
  judge_main failing_judge bench_rows 1 (Some judged_so_far)
  = Some (Run (judged failing_judge <$> bench_rows)
        (Some (Ledger (dom (bench_row "" "") ∪ score_fields)
                 (judged_text failing_judge <$> bench_rows)))).
Proof.
  apply fresh_run_replaces_file; [done|lia|]. by_evaluation.
Defined.

Lemma resume_without_file_witness :
  judge_main failing_judge bench_rows 3 None
  = Some (Run (judged failing_judge <$> drop 2 bench_rows)
        (Some (Ledger (dom (bench_row "" "") ∪ score_fields)
                 (judged_text failing_judge <$> drop 2 bench_rows)))).
Proof.
  apply (resume_without_file failing_judge bench_rows 3); [done|].
  by_evaluation.
Defined.

Lemma resume_past_end_changes_nothing_witness :
  judge_main failing_judge bench_rows 4 (Some judged_so_far)
  = Some (Run (as_read <$> lrows judged_so_far) (Some judged_so_far)).
Proof.
  apply (resume_past_end_changes_nothing failing_judge bench_rows 4); [done|].
  cbn. lia.
Defined.

(** X11. The total of a judged row is never negative, whatever the judge
    answers; it is at most 6 when each of the four scores of the judge is
    at most 1, and when the judge call fails it is the sum of the routing
    and the ordering score. *)
Theorem total_score_range (r : csv_row) (reply : judge_reply) :
  0 ≤ total_of (scores_of r reply)
  ∧ out_row r reply !! "total_score" = Some (CInt (total_of (scores_of r reply)))
  ∧ match reply with
    | JudgeError _ =>
        total_of (scores_of r reply)
        = auto_score_routing r + auto_score_ordering r
    | JudgeOk j _ =>
        filter_accuracy j ≤ 1 → data_retrieval j ≤ 1 →
        response_quality j ≤ 1 → behavior_compliance j ≤ 1 →
        total_of (scores_of r reply) ≤ 6
    end.
Proof.
  pose proof (auto_score_routing_range r) as Hr.
  pose proof (auto_score_ordering_range r) as Ho.
  split; [|split].
  - rewrite total_of_contribution.
    destruct reply as [e|j t];
      cbn [scores_of fmap list_fmap contribution sum_Z foldr]; lia.
  - unfold out_row. cbv zeta. apply lookup_union_Some_l.
    apply elem_of_list_to_map_1.
    + cbn [fmap list_fmap fst]. by_evaluation.
    + rewrite !elem_of_cons. tauto.
  - destruct reply as [e|j t]; rewrite total_of_contribution;
      cbn [scores_of fmap list_fmap contribution sum_Z foldr]; lia.
Qed.

Lemma total_score_range_witness :
  0 ≤ total_of (scores_of row_all_steps judged_filter_not_applicable) ≤ 6.
Proof.
  destruct (total_score_range row_all_steps judged_filter_not_applicable)
    as (Hlow & _ & Hhigh).
  split; [exact Hlow|]. apply Hhigh; by vm_compute.
Defined.

(** X12. Judging a row leaves its benchmark columns as they are: in the
    line written for the row every column that is not one of the twelve
    score columns holds the text of the benchmark row; the columns of the
    line are those of the benchmark row and the twelve score columns. *)
Theorem judged_row_keeps_benchmark_columns
    (call_judge : csv_row → judge_reply) (r : csv_row) (f : string)
    (Hf : f ∉ score_fields) :
  judged_text call_judge r !! f = r !! f
  ∧ dom (judged_text call_judge r) = dom r ∪ score_fields.
Proof.
  unfold judged_text, judged. split.
  - rewrite lookup_fmap, out_row_benchmark_column by done.
    by destruct (r !! f).
  - by rewrite dom_fmap_L, dom_out_row.
Qed.

Lemma judged_row_keeps_benchmark_columns_witness :
  judged_text failing_judge (bench_row "3" "1_know") !! "dataset"
  = bench_row "3" "1_know" !! "dataset".
Proof.
  apply (judged_row_keeps_benchmark_columns failing_judge
           (bench_row "3" "1_know") "dataset").
  by_evaluation.
Defined.

(** ** The count and the failures of a merge *)

Lemma mapM_Exists_None {A B} (f : A → option B) (l : list A) :
  Exists (λ x, f x = None) l → mapM f l = None.
Proof.
  induction 1 as [x l Hx|x l _ IH]; cbn.
  - by rewrite Hx.
  - rewrite IH. by destruct (f x).
Qed.

Section MergeRuns.

Variable int_of_text : string → option Z.

Lemma build_lookup_None (platform mode : string) (new_rows : list row) :
  Exists (λ r, row_no int_of_text r = None) new_rows →
  ∀ acc, build_lookup int_of_text platform mode new_rows acc = None.
Proof.
  induction 1 as [r rs Hr|r rs _ IH]; intros acc; cbn [build_lookup].
  - unfold incoming_key. by rewrite Hr.
  - destruct (incoming_key int_of_text platform mode r); [apply IH|done].
Qed.

Lemma build_lookup_Some_Forall (platform mode : string) (new_rows : list row) :
  ∀ acc m, build_lookup int_of_text platform mode new_rows acc = Some m →
           Forall (λ r, is_Some (row_no int_of_text r)) new_rows.
Proof.
  induction new_rows as [|r rs IH]; intros acc m Hm; [constructor|].
  cbn [build_lookup] in Hm.
  destruct (incoming_key int_of_text platform mode r) as [k|] eqn:Hk; [|done].
  constructor; [|by eapply IH].
  unfold incoming_key in Hk. by destruct (row_no int_of_text r); [eexists|].
Qed.

(** X13. The count that a merge returns is the number of rows of the ledger
    whose key is the key of an incoming row; it does not count the incoming
    rows, so an incoming row for a key that the ledger does not have is not
    counted and a key that the ledger has twice is counted twice. *)
Theorem merge_count
    (file : ledger) (new_rows : list row) (platform mode : string)
    (file' : ledger) (n : nat)
    (Hrun : merge_into_benchmark int_of_text file new_rows platform mode
            = Some (file', n)) :
  n = length (filter
        (λ r : csv_row,
           is_Some (existing_key int_of_text (as_read r)
                      ≫= incoming_for int_of_text platform mode new_rows))
        (lrows file))
  ∧ (n ≤ length (lrows file))%nat.
Proof.
  unfold merge_into_benchmark in Hrun.
  destruct (build_lookup int_of_text platform mode new_rows ∅)
    as [m|] eqn:Hm; [|done].
  cbn [mbind option_bind] in Hrun.
  destruct (mapM (merge_row int_of_text m) (as_read <$> lrows file))
    as [merged|] eqn:Hmerged; [|done].
  cbn [mbind option_bind] in Hrun.
  destruct (write_ledger (fieldnames file) merged.*1); [|done].
  cbn [mbind option_bind] in Hrun. injection Hrun as _ <-.
  destruct (build_lookup_spec int_of_text platform mode new_rows ∅
              (build_lookup_Some_Forall _ _ _ _ _ Hm)) as (m' & Hm' & Hlook).
  assert (m' = m) as -> by congruence.
  assert (∀ k, m !! k = incoming_for int_of_text platform mode new_rows k)
    as Hlook'.
  { intros k. rewrite Hlook, lookup_empty. by destruct (incoming_for _ _ _ _ _). }
  assert (count_updated merged
          = length (filter
              (λ r : csv_row,
                 is_Some (existing_key int_of_text (as_read r)
                            ≫= incoming_for int_of_text platform mode new_rows))
              (lrows file))) as ->.
  { apply mapM_Some_1, Forall2_fmap_l in Hmerged.
    induction Hmerged as [|r y rs ys Hy _ IH]; [done|].
    unfold count_updated in *. rewrite !filter_cons.
    cbn [compose] in Hy. unfold merge_row in Hy.
    destruct (existing_key int_of_text (as_read r)) as [k|]; [|done].
    cbn [mbind option_bind] in Hy |- *. rewrite <-Hlook'.
    injection Hy as <-.
    destruct (m !! k); cbn [snd].
    - rewrite decide_True by done. rewrite decide_True by by eexists.
      cbn [length]. by rewrite IH.
    - rewrite decide_False by done.
      by rewrite decide_False by by intros [? ?]. }
  split; [done|]. apply length_filter.
Qed.

(** X14. A merge stops with the error of [int] when the number of one of
    the incoming rows, or of one of the rows of the ledger, is not an
    integer text, also when every other row is as it should be: the call
    returns no count. *)
Theorem merge_aborts_on_bad_number
    (file : ledger) (new_rows : list row) (platform mode : string)
    (Hbad : Exists (λ r, row_no int_of_text r = None) new_rows
            ∨ Exists (λ r, row_no int_of_text (as_read r) = None) (lrows file)) :
  merge_into_benchmark int_of_text file new_rows platform mode = None.
Proof.
  unfold merge_into_benchmark. destruct Hbad as [H|H].
  - by rewrite build_lookup_None.
  - destruct (build_lookup int_of_text platform mode new_rows ∅); [|done].
    cbn [mbind option_bind]. rewrite mapM_Exists_None; [done|].
    apply Exists_fmap. eapply Exists_impl; [exact H|].
    intros r Hr. unfold merge_row, existing_key. cbn [compose]. by rewrite Hr.
Qed.

Lemma existing_key_cleared (r : csv_row) :
  existing_key int_of_text (as_read (cleared r))
  = existing_key int_of_text (as_read r).
Proof.
  assert (∀ f, f ∉ downstream_fields →
            as_read (cleared r) !! f = as_read r !! f) as Hsame.
  { intros f Hf. unfold as_read.
    by rewrite !lookup_fmap, cleared_lookup, decide_False. }
  unfold existing_key, row_no.
  rewrite !Hsame; [done|by_evaluation..].
Qed.

Lemma cleared_idemp (r : csv_row) : cleared (cleared r) = cleared r.
Proof.
  apply map_eq. intros f. rewrite !cleared_lookup.
  case_decide; by destruct (r !! f).
Qed.

Lemma dom_cleared (r : csv_row) : dom (cleared r) = dom r.
Proof.
  apply set_eq. intros f. rewrite !elem_of_dom, cleared_lookup.
  case_decide; [|done]. by rewrite fmap_is_Some.
Qed.

Lemma marked_idemp (updated_queries : list key) (r : csv_row) :
  marked int_of_text updated_queries (marked int_of_text updated_queries r)
  = marked int_of_text updated_queries r.
Proof.
  unfold marked.
  destruct (existing_key int_of_text (as_read r)) as [k|] eqn:Hk.
  - destruct (decide (k ∈ updated_queries)) as [Hin|Hin].
    + by rewrite existing_key_cleared, Hk, decide_True, cleared_idemp.
    + by rewrite Hk, decide_False.
  - by rewrite Hk.
Qed.

Lemma dom_marked (updated_queries : list key) (r : csv_row) :
  dom (marked int_of_text updated_queries r) = dom r.
Proof.
  unfold marked. destruct (existing_key _ _); [|done].
  case_decide; [apply dom_cleared|done].
Qed.

Lemma existing_key_marked (updated_queries : list key) (r : csv_row) :
  existing_key int_of_text (as_read (marked int_of_text updated_queries r))
  = existing_key int_of_text (as_read r).
Proof.
  unfold marked.
  destruct (existing_key int_of_text (as_read r)) as [k|] eqn:Hk; [|done].
  case_decide; [|done]. by rewrite existing_key_cleared.
Qed.

Lemma rejudge_run (file : ledger) (updated_queries : list key) :
  ledger_wf file →
  Forall (λ r, is_Some (existing_key int_of_text (as_read r))) (lrows file) →
  merge_into_judge int_of_text (Some file) updated_queries true
  = Some (Some (Ledger (fieldnames file)
                  (marked int_of_text updated_queries <$> lrows file))).
Proof.
  intros Hwf Hkey. unfold ledger_wf in Hwf.
  rewrite Forall_forall in Hwf, Hkey.
  unfold merge_into_judge, write_ledger.
  rewrite (mapM_fmap_Some _ _
             (λ r, match existing_key int_of_text (as_read r) with
                   | Some k => if decide (k ∈ updated_queries)
                               then clear_scores (as_read r) else as_read r
                   | None => as_read r
                   end)).
  2:{ apply Forall_forall. intros r Hr. destruct (Hkey r Hr) as [k Hk].
      unfold rejudge_row. by rewrite Hk. }
  cbn [mbind option_bind].
  rewrite (mapM_fmap_Some _ _ (marked int_of_text updated_queries)); [done|].
  apply Forall_forall. intros r Hr. destruct (Hkey r Hr) as [k Hk].
  unfold marked. rewrite Hk. case_decide.
  - rewrite write_row_full.
    + by rewrite written_clear_scores.
    + rewrite dom_clear_scores, dom_as_read. by apply Hwf.
  - apply write_row_as_read. by apply Hwf.
Qed.

(** X15. Marking the updated queries of a judge file for re-judging a
    second time changes nothing: the pass empties judge fields only, which
    are no part of the key of a row, so the second pass finds the same rows
    and they are already empty. *)
Theorem rejudge_twice_is_once
    (file : ledger) (updated_queries : list key)
    (Hwf : ledger_wf file)
    (Hno : Forall (λ r, is_Some (row_no int_of_text (as_read r))) (lrows file)) :
  ∃ file' : ledger,
    merge_into_judge int_of_text (Some file) updated_queries true
      = Some (Some file')
    ∧ merge_into_judge int_of_text (Some file') updated_queries true
      = Some (Some file').
Proof.
  assert (Forall (λ r, is_Some (existing_key int_of_text (as_read r)))
            (lrows file)) as Hkey.
  { eapply Forall_impl; [exact Hno|]. intros r. apply existing_key_is_Some. }
  eexists. split; [by apply rejudge_run|].
  rewrite rejudge_run.
  - cbn [fieldnames lrows]. rewrite <-list_fmap_compose.
    do 3 f_equal. apply list_fmap_ext. intros i r _. apply marked_idemp.
  - unfold ledger_wf in *. cbn [fieldnames lrows]. apply Forall_fmap.
    eapply Forall_impl; [exact Hwf|]. intros r Hr. cbn [compose].
    by rewrite dom_marked.
  - cbn [lrows]. apply Forall_fmap. eapply Forall_impl; [exact Hkey|].
    intros r Hr. cbn [compose]. by rewrite existing_key_marked.
Qed.

End MergeRuns.

Lemma merge_count_witness :
  1%nat
  = length (filter
      (λ r : csv_row,
         is_Some (existing_key decimal_int (as_read r)
                    ≫= incoming_for decimal_int "claude" "single"
                         example_new_rows))
      (lrows example_ledger)).
Proof.
  apply (merge_count decimal_int example_ledger example_new_rows
           "claude" "single"
           (Ledger example_fields
              [example_row "CPI" "1" "ok"; example_row "CPI" "2" "ok";
               example_row "PLFS" "1" "ok"]) 1).
  by_evaluation.
Defined.

Lemma merge_aborts_on_bad_number_witness :
  merge_into_benchmark decimal_int example_ledger
    (example_new_rows ++ [unnumbered_row]) "claude" "single"
  = None.
Proof.
  apply merge_aborts_on_bad_number. left.
  apply Exists_app. right. apply Exists_cons_hd. by vm_compute.
Defined.

Lemma rejudge_twice_is_once_witness :
  ∃ file' : ledger,
    merge_into_judge decimal_int (Some example_ledger) example_updated true
      = Some (Some file')
    ∧ merge_into_judge decimal_int (Some file') example_updated true
      = Some (Some file').
Proof.
  apply rejudge_twice_is_once; [exact example_ledger_wf|exact example_ledger_no].
Defined.

(** ** The columns computed from the calls *)

Lemma extract_from_skip (post rest : list call) :
  Forall (λ c, tool c ≠ "4_get_data") post →
  extract_from (post ++ rest) = extract_from rest.
Proof.
  induction 1 as [|c post Hc _ IH]; [done|].
  cbn [app extract_from]. by rewrite decide_False.
Qed.

(** X16. The filters column is read off the last call of the data tool
    alone: the calls before it and the calls of other tools after it play
    no part.  It is the value under [filters] when the arguments have one,
    the arguments themselves otherwise, and the function raises when they
    are not a dict; without a call of the data tool the result is the
    empty dict. *)
Theorem extract_uses_last_get_data (pre post : list call) (c : call)
    (Htool : tool c = "4_get_data")
    (Hpost : Forall (λ c', tool c' ≠ "4_get_data") post) :
  extract_get_data_args (pre ++ c :: post)
  = match args c with
    | PDict d => Some (default (PDict d) (assoc_get "filters" d))
    | _ => None
    end
  ∧ extract_get_data_args post = Some (PDict []).
Proof.
  unfold extract_get_data_args. split.
  - rewrite reverse_app, reverse_cons, <-!app_assoc.
    rewrite extract_from_skip by by apply Forall_reverse.
    cbn [app extract_from]. rewrite decide_True by done.
    by destruct (args c).
  - rewrite <-(app_nil_r (reverse post)).
    by rewrite extract_from_skip by by apply Forall_reverse.
Qed.

Lemma extract_uses_last_get_data_witness :
  extract_get_data_args calls_with_filters
  = Some (PDict [("state_code", PStr "4")]).
Proof.
  refine (proj1 (extract_uses_last_get_data
            [Call "4_get_data" (PDict [("dataset", PStr "CPI")]) 2 "{}"
               false false]
            [Call "3_get_metadata" (PDict [("dataset", PStr "CPI")]) 2 "{}"
               false false]
            (Call "4_get_data"
               (PDict [("dataset", PStr "CPI");
                       ("filters", PDict [("state_code", PStr "4")])])
               2 "{}" false false) _ _)).
  - reflexivity.
  - apply Forall_cons_2; [by vm_compute|apply Forall_nil_2].
Defined.

(** X17. The output column of a tool holds the output of the last call of
    that tool, whatever its outcome, and the empty text when the tool was
    not called: the output of a call that succeeded is replaced by the
    output of a later call of the same tool that failed. *)
Theorem last_output_is_last_call (t : string) (cs : list call) (c : call) :
  last_output t cs
  = default "" (output <$> last (filter (λ c', tool c' = t) cs))
  ∧ last_output (tool c) (cs ++ [c]) = output c.
Proof.
  assert (∀ l, last_output t l
               = default "" (output <$> last (filter (λ c', tool c' = t) l)))
    as Hlast.
  { intros l. unfold last_output. cbv zeta.
    pose proof (group_by_tool_lookup output l t) as Hl.
    rewrite <-fmap_last, <-Hl.
    by destruct (assoc_get t (group_by_tool output l)) as [[|o k]|]. }
  split; [apply Hlast|]. clear Hlast.
  unfold last_output. cbv zeta.
  pose proof (group_by_tool_lookup output (cs ++ [c]) (tool c)) as Hl.
  rewrite filter_app, filter_cons, filter_nil in Hl.
  rewrite decide_True in Hl by done. rewrite fmap_app in Hl.
  destruct (assoc_get (tool c) (group_by_tool output (cs ++ [c])))
    as [[|o k]|]; cbn [from_option] in Hl; unfold id in Hl.
  - by destruct (output <$> filter (λ c0, tool c0 = tool c) cs).
  - rewrite Hl. cbn [fmap list_fmap]. by rewrite last_snoc.
  - by destruct (output <$> filter (λ c0, tool c0 = tool c) cs).
Qed.

Lemma trace_token_None (py_str : pyval → string) (c : call) :
  trace_token py_str c = None
  ↔ tool c ∈ protocol_tools ∧ is_dict (args c) = false.
Proof.
  unfold trace_token, protocol_tools. rewrite !elem_of_cons, elem_of_nil.
  repeat case_decide.
  - split; [done|]. intros [[?|[?|[?|[]]]] _]; congruence.
  - destruct (args c); cbn; split; try done; try (intros [_ ?]; done);
      intros _; split; auto.
  - destruct (args c); cbn; split; try done; try (intros [_ ?]; done);
      intros _; split; auto.
  - destruct (args c); cbn; split; try done; try (intros [_ ?]; done);
      intros _; split; auto.
  - split; [done|]. intros [[?|[?|[?|[]]]] _]; congruence.
Qed.

Lemma trace_raises_on (py_str : pyval → string) (cs : list call) :
  Exists (λ c, tool c ∈ protocol_tools ∧ is_dict (args c) = false) cs →
  summarize_tool_trace py_str cs = None.
Proof.
  intros Hbad. unfold summarize_tool_trace.
  rewrite mapM_Exists_None; [done|].
  eapply Exists_impl; [exact Hbad|]. intros c Hc. by apply trace_token_None.
Qed.

(** X18. Building the trace raises exactly when one of the calls is a call
    of the indicators, the metadata or the data tool whose arguments are
    not a dict; the arguments of the calls of other tools are not read. *)
Theorem trace_raises_iff (py_str : pyval → string) (cs : list call) :
  summarize_tool_trace py_str cs = None
  ↔ Exists (λ c, tool c ∈ protocol_tools ∧ is_dict (args c) = false) cs.
Proof.
  split; [|apply trace_raises_on].
  unfold summarize_tool_trace.
  destruct (mapM (trace_token py_str) cs) as [parts|] eqn:Hparts; [done|].
  intros _. induction cs as [|c cs IH]; [done|].
  cbn in Hparts.
  destruct (trace_token py_str c) as [token|] eqn:Htoken.
  - apply Exists_cons_tl, IH.
    by destruct (mapM (trace_token py_str) cs).
  - apply Exists_cons_hd. by apply (trace_token_None py_str).
Qed.

(** X19. One arguments line that does not evaluate is enough to lose the
    trace of a log: the parser keeps the text of the line as the arguments
    of the call, and for a call of the indicators, the metadata or the data
    tool the trace then raises. *)
Theorem unevaluated_arguments_break_trace
    (py_eval : string → option pyval) (py_str : pyval → string)
    (recs : list telemetry) (r : telemetry) (a : string)
    (Hok : Forall telemetry_ok recs)
    (Hr : r ∈ recs)
    (Htool : t_tool r ∈ protocol_tools)
    (Hargs : t_args r = Some a)
    (Heval : py_eval a = None) :
  args (call_of py_eval r) = PStr a
  ∧ call_of py_eval r ∈ parse_tool_calls py_eval (telemetry_log recs)
  ∧ summarize_tool_trace py_str (parse_tool_calls py_eval (telemetry_log recs))
    = None.
Proof.
  assert (args (call_of py_eval r) = PStr a) as Hstr.
  { unfold call_of. cbn [args]. rewrite Hargs, Heval. cbn [default from_option].
    rewrite Forall_forall in Hok. destruct (Hok r Hr) as (_ & Ha & _).
    rewrite Hargs in Ha. apply line_piece_nonempty in Ha.
    unfold py_or. cbn [truthy].
    destruct (String.eqb_spec a ""); [done|]. done. }
  rewrite parse_telemetry_log by done.
  split; [done|]. split; [by apply list_elem_of_fmap_2|].
  apply trace_raises_on, Exists_exists.
  exists (call_of py_eval r). split; [by apply list_elem_of_fmap_2|].
  split; [done|]. by rewrite Hstr.
Qed.

Lemma unevaluated_arguments_break_trace_witness :
  summarize_tool_trace str_scalar
    (parse_tool_calls eval_years (telemetry_log example_records))
  = None.
Proof.
  refine (proj2 (proj2 (unevaluated_arguments_break_trace eval_years str_scalar
            example_records
            (Telemetry "2_get_indicators" (Some "{'dataset': CPI}") "17"
               "{'indicators': []}")
            "{'dataset': CPI}" _ _ _ _ _))).
  - unfold example_records.
    repeat (apply Forall_cons_2; [repeat split; by vm_compute|]).
    apply Forall_nil_2.
  - apply elem_of_cons. by left.
  - unfold protocol_tools. cbn [t_tool]. apply elem_of_cons. by left.
  - reflexivity.
  - by vm_compute.
Defined.

(** ** Updating one row of the judge file *)

Section UpdateProps.

Variable int_of_text : string → option Z.




End UpdateProps.


(** ** The response columns *)

Lemma length_prefix_n (n : nat) (s : string) :
  (String.length (prefix_n n s) ≤ n)%nat.
Proof.
  revert s. induction n as [|n IH]; intros [|a s]; cbn; try lia.
  specialize (IH s). lia.
Qed.

Lemma length_map_chars (f : ascii → ascii) (s : string) :
  String.length (map_chars f s) = String.length s.
Proof. induction s as [|a s IH]; cbn; [done|]. by rewrite IH. Qed.

Lemma length_lstrip (s : string) :
  (String.length (lstrip s) ≤ String.length s)%nat.
Proof.
  induction s as [|a s IH]; cbn; [done|]. destruct (py_isspace a); cbn; lia.
Qed.

Lemma length_rev_app (s acc : string) :
  String.length (String.rev_app s acc)
  = (String.length s + String.length acc)%nat.
Proof.
  revert acc. induction s as [|a s IH]; intros acc; cbn; [done|].
  rewrite IH. cbn. lia.
Qed.

Lemma length_strip (s : string) :
  (String.length (strip s) ≤ String.length s)%nat.
Proof.
  unfold strip, rstrip, String.rev. rewrite length_rev_app. cbn.
  pose proof (length_lstrip (String.rev_app (lstrip s) "")) as H1.
  rewrite length_rev_app in H1. cbn in H1.
  pose proof (length_lstrip s). lia.
Qed.

Lemma no_newline_lstrip (s : string) :
  no_newline s = true → no_newline (lstrip s) = true.
Proof.
  induction s as [|a s IH]; cbn; [done|].
  intros [Ha Hs]%andb_true_iff. destruct (py_isspace a); [by apply IH|].
  cbn. by rewrite Ha, Hs.
Qed.

Lemma no_newline_rev_app (s acc : string) :
  no_newline (String.rev_app s acc) = no_newline s && no_newline acc.
Proof.
  revert acc. induction s as [|a s IH]; intros acc; cbn; [done|].
  rewrite IH. cbn. by destruct (negb (Ascii.eqb a newline)), (no_newline s).
Qed.

Lemma no_newline_strip (s : string) :
  no_newline s = true → no_newline (strip s) = true.
Proof.
  intros Hs. unfold strip, rstrip, String.rev.
  rewrite no_newline_rev_app, andb_true_r.
  apply no_newline_lstrip. rewrite no_newline_rev_app, andb_true_r.
  by apply no_newline_lstrip.
Qed.

Lemma no_newline_replace (s : string) : no_newline (replace_newlines s) = true.
Proof.
  unfold replace_newlines. induction s as [|a s IH]; cbn; [done|].
  rewrite IH, andb_true_r. by destruct (Ascii.eqb a newline) eqn:E; [|rewrite E].
Qed.

Lemma no_newline_escape (s : string) : no_newline (escape_newlines s) = true.
Proof.
  induction s as [|a s IH]; cbn; [done|].
  destruct (Ascii.eqb a newline) eqn:E; cbn; rewrite IH; [done|].
  by rewrite E.
Qed.

(** X22. The two response columns of a row hold no line feed, whatever the
    response is, and the short one has at most 503 characters. *)
Theorem response_columns_hold_no_line_feed (response : string) :
  no_newline (response_short response) = true
  ∧ (String.length (response_short response) ≤ 503)%nat
  ∧ no_newline (response_full response) = true.
Proof.
  assert (no_newline (strip (replace_newlines (prefix_n 500 response))) = true)
    as Hshort by apply no_newline_strip, no_newline_replace.
  pose proof (length_strip (replace_newlines (prefix_n 500 response))) as Hlen.
  unfold replace_newlines in Hlen at 2. rewrite length_map_chars in Hlen.
  pose proof (length_prefix_n 500 response).
  unfold response_short, response_full. cbv zeta.
  split; [|split; [|apply no_newline_escape]].
  - case_decide; [|done]. by rewrite no_newline_app, Hshort.
  - case_decide; [|lia]. rewrite length_app_str.
    change (String.length "...") with 3%nat. lia.
Qed.

(** ** Arguments that did not evaluate *)

(** X24. When the arguments of a call are a text, because the arguments
    line did not evaluate, the search for the dataset raises if the text
    holds the word dataset and passes on to the next call otherwise,
    provided no earlier call names a dataset. *)
Theorem detect_on_raw_arguments (pre post : list call) (c : call) (a : string)
    (Hpre : Forall (λ c', probe_dataset (args c') = Absent) pre)
    (Hargs : args c = PStr a) :
  detect_dataset_used (pre ++ c :: post)
  = if contains "dataset" a then None else detect_dataset_used post.
Proof.
  induction Hpre as [|c' pre Hc' _ IH].
  - cbn [app detect_dataset_used]. rewrite Hargs. unfold probe_dataset.
    cbn [py_in]. by destruct (contains "dataset" a).
  - cbn [app detect_dataset_used]. by rewrite Hc'.
Qed.

Lemma detect_on_raw_arguments_witness :
  detect_dataset_used calls_with_raw_arguments = None.
Proof.
  apply (detect_on_raw_arguments
           [Call "1_know_about_mospi_api" (PStr "{broken") 2 "{}" false false]
           [Call "3_get_metadata" (PDict [("dataset", PStr "CPI")]) 2 "{}"
              false false]
           (Call "2_get_indicators" (PStr "{'dataset': CPI}") 2 "{}"
              false false)
           "{'dataset': CPI}").
  - apply Forall_cons_2; [by vm_compute|apply Forall_nil_2].
  - reflexivity.
Defined.
